(** * better-chatbot: pricing repository and model registry

    A shallow embedding of
    [src/lib/db/pg/repositories/openrouter-pricing-repository.pg.ts]
    (the pricing repository followed by the model registry) and the
    properties its specification states about it.

    Conventions.
    - A JavaScript plain object used as a dictionary is a [gmap] of its own
      string-keyed properties; what a *read* additionally finds through the
      prototype chain is written out ([lookupPlain], [getV]).  The order in
      which [Object.entries] enumerates is not modelled: enumerations are
      lists whose order carries no meaning.
    - Objects compared by reference (model handles) carry an allocation
      number, so structural equality of the model is reference equality of
      the program.
    - [process.env] is a finite map from variable names to strings.
    - Everything the program leaves to the ECMAScript host or to other
      modules is a field of the class [Host] or a section variable. *)

From stdpp Require Import gmap strings list fin_maps.

Set Warnings "-register-all,-clear-no-such-hyp".

Open Scope string_scope.

(** ** Completions *)

(** An evaluation either yields a value or throws. *)
Inductive Completion (A : Type) : Type :=
| Normal (a : A)
| Throw.
Arguments Normal {A} a.
Arguments Throw {A}.

#[global] Instance Completion_bind : MBind Completion :=
  fun A B (k : A → Completion B) (c : Completion A) =>
    match c with
    | Normal a => k a
    | Throw => Throw
    end.

#[global] Instance Completion_ret : MRet Completion := fun A a => Normal a.

(** ** Numbers *)

(** The Number type: NaN, the two infinities, and signed finite values
    [mant * 2 ^ exp] (both zeros are [mant = 0]). *)
Inductive JsNum : Type :=
| NaN
| Infinity (neg : bool)
| Dyadic (neg : bool) (mant : N) (exp : Z).

#[global] Instance JsNum_eq_dec : EqDecision JsNum.
Proof. solve_decision. Defined.

(** [Number.isNaN] *)
Definition isNaN (x : JsNum) : bool :=
  match x with
  | NaN => true
  | _ => false
  end.

(** ToBoolean on a Number: false for NaN and for both zeros. *)
Definition truthyNum (x : JsNum) : bool :=
  match x with
  | NaN => false
  | Infinity _ => true
  | Dyadic _ mant _ => negb (mant =? 0)%N
  end.

Definition numZero : JsNum := Dyadic false 0 0.
Definition numOne : JsNum := Dyadic false 1 0.

(** ** Model handles *)

(** A [LanguageModel] object returned by a provider factory such as
    [openai("gpt-4.1")].  [ref] is the allocation number of the object. *)
Record Handle : Type := mkHandle {
  ref : nat;
  sdk : string;
  modelId : string;
}.

#[global] Instance Handle_eq_dec : EqDecision Handle.
Proof. solve_decision. Defined.

#[global] Instance Handle_countable : Countable Handle.
Proof.
  refine (inj_countable' (fun h => (ref h, sdk h, modelId h))
                         (fun t => mkHandle t.1.1 t.1.2 t.2) _).
  by intros [].
Defined.

(** [type ModelMap = Record<string, LanguageModel>]: the own properties,
    and the object's prototype ([None] is [Object.prototype], which every
    object literal starts with; [Some h] after [map["__proto__"] = h]). *)
Record ModelMap : Type := mkModelMap {
  own : gmap string Handle;
  proto : option Handle;
}.

#[global] Instance ModelMap_eq_dec : EqDecision ModelMap.
Proof. solve_decision. Defined.

(** An object literal [{ k1: h1, ... }]. *)
Definition plain (props : list (string * Handle)) : ModelMap :=
  mkModelMap (list_to_map props) None.

(** ** Values that reads can produce *)

(** [HV] is the host's type of every other value (built-in objects and
    functions, primitives). *)
Inductive Value (HV : Type) : Type :=
| VUndefined
| VHandle (h : Handle)
| VModelMap (m : ModelMap)
| VHost (o : HV).
Arguments VUndefined {HV}.
Arguments VHandle {HV} h.
Arguments VModelMap {HV} m.
Arguments VHost {HV} o.

(** ** The host *)

(** What the program takes from the ECMAScript host and from the SDK
    objects it holds. *)
Class Host : Type := {
  (** [Number(s)] on a string and [String(x)] on a number *)
  StringToNumber : string → JsNum;
  NumberToString : JsNum → string;
  (** values other than handles and model maps, with ToBoolean and the
      test [v == null] on them *)
  HostVal : Type;
  hostTruthy : HostVal → bool;
  hostNullish : HostVal → bool;
  (** [o[k]] for a name [k] that [o], a plain object, does not own: the
      property of [Object.prototype], if it has one of that name *)
  objectPrototypeGet : string → option HostVal;
  (** [o[k]] on a host value, and the lookup of [k] along the chain that
      starts at a handle *)
  hostGet : HostVal → string → Completion (Value HostVal);
  handleGet : Handle → string → Completion (Value HostVal);
}.

Section Reads.
Context `{Host}.

(** ToBoolean *)
Definition truthy (v : Value HostVal) : bool :=
  match v with
  | VUndefined => false
  | VHandle _ => true
  | VModelMap _ => true
  | VHost o => hostTruthy o
  end.

Definition nullish (v : Value HostVal) : bool :=
  match v with
  | VUndefined => true
  | VHost o => hostNullish o
  | _ => false
  end.

(** A name that a plain object does not own is looked up in
    [Object.prototype]. *)
Definition inherited (k : string) : Value HostVal :=
  match objectPrototypeGet k with
  | Some o => VHost o
  | None => VUndefined
  end.

(** [o[k]] where [o] is a plain object with own properties [props]. *)
Definition lookupPlain {A} (inj : A → Value HostVal)
    (props : gmap string A) (k : string) : Value HostVal :=
  match props !! k with
  | Some a => inj a
  | None => inherited k
  end.

(** [v[k]] *)
Definition getV (v : Value HostVal) (k : string) : Completion (Value HostVal) :=
  match v with
  | VUndefined => Throw
  | VHandle h => handleGet h k
  | VModelMap m =>
      match own m !! k with
      | Some h => Normal (VHandle h)
      | None =>
          match proto m with
          | None => Normal (inherited k)
          | Some p => handleGet p k
          end
      end
  | VHost o => hostGet o k
  end.

(** [v?.[k]] *)
Definition optChain (v : Value HostVal) (k : string) : Completion (Value HostVal) :=
  if nullish v then Normal VUndefined else getV v k.

(** [a || b] *)
Definition orElse (a b : Value HostVal) : Value HostVal :=
  if truthy a then a else b.
End Reads.

(** [m[k] = h] on a model map.  The name [__proto__] is the accessor of
    [Object.prototype]: assigning an object to it replaces the prototype
    and creates no own property. *)
Definition setProp (m : ModelMap) (k : string) (h : Handle) : ModelMap :=
  if decide (k = "__proto__")
  then mkModelMap (own m) (Some h)
  else mkModelMap (<[k := h]> (own m)) (proto m).

(** ** JSON values *)

(** The result of [response.json()]. [JObject] lists the own properties;
    of two fields with one name the later one is the property's value. *)
Inductive Json : Type :=
| JNull
| JBool (b : bool)
| JNumber (x : JsNum)
| JString (s : string)
| JArray (items : list Json)
| JObject (fields : list (string * Json)).

Fixpoint lookupField (k : string) (fields : list (string * Json)) : option Json :=
  match fields with
  | [] => None
  | (k', v) :: rest =>
      match lookupField k rest with
      | Some w => Some w
      | None => if String.eqb k k' then Some v else None
      end
  end.

(** [v?.k] for the names the refresher reads ([data], [models], [id],
    [pricing], [prompt], [completion], [request]); [None] is [undefined].
    No built-in prototype defines any of these names, so only the own
    properties of an object count. *)
Definition getProp (v : option Json) (k : string) : option Json :=
  match v with
  | Some (JObject fields) => lookupField k fields
  | _ => None
  end.

(** ToBoolean *)
Definition truthyJ (v : option Json) : bool :=
  match v with
  | None => false
  | Some JNull => false
  | Some (JBool b) => b
  | Some (JNumber x) => truthyNum x
  | Some (JString s) => negb (String.eqb s "")
  | Some (JArray _) => true
  | Some (JObject _) => true
  end.

(** [Array.prototype.join] with the default separator. *)
Definition joinWith (f : Json → Completion string) : list Json → Completion string :=
  fix go (l : list Json) : Completion string :=
    match l with
    | [] => Normal ""
    | [e] => f e
    | e :: rest => s ← f e; r ← go rest; Normal (s ++ "," ++ r)
    end.

Section Conversions.
Context `{Host}.

(** ToString.  A parsed object has no callable own property, so an own
    [toString] leaves no conversion method and the conversion throws a
    TypeError; otherwise [Object.prototype.toString] answers.  An array
    is joined, [null] elements printing as the empty string. *)
Fixpoint ToString (v : Json) : Completion string :=
  match v with
  | JNull => Normal "null"
  | JBool true => Normal "true"
  | JBool false => Normal "false"
  | JNumber x => Normal (NumberToString x)
  | JString s => Normal s
  | JArray items =>
      joinWith (fun e => match e with
                         | JNull => Normal ""
                         | _ => ToString e
                         end) items
  | JObject fields =>
      match lookupField "toString" fields with
      | Some _ => Throw
      | None => Normal "[object Object]"
      end
  end.

(** [Number(v)] *)
Definition ToNumber (v : option Json) : Completion JsNum :=
  match v with
  | None => Normal NaN
  | Some JNull => Normal numZero
  | Some (JBool true) => Normal numOne
  | Some (JBool false) => Normal numZero
  | Some (JNumber x) => Normal x
  | Some (JString s) => Normal (StringToNumber s)
  | Some w => s ← ToString w; Normal (StringToNumber s)
  end.
End Conversions.

(** ** The pricing repository *)

(** [type OpenRouterPricing].  [requestPrice = None] is [null] or
    [undefined], which the repository does not tell apart ([!= null]). *)
Record OpenRouterPricing : Type := mkPricing {
  pModelId : string;
  promptPrice : JsNum;
  completionPrice : JsNum;
  requestPrice : option JsNum;
  currency : string;
  updatedAt : option Z;
}.

(** A row of the table behind [OpenRouterPricingSchema]: prices are text. *)
Record Row : Type := mkRow {
  rowModelId : string;
  rowPromptPrice : string;
  rowCompletionPrice : string;
  rowRequestPrice : option string;
  rowCurrency : string;
  rowUpdatedAt : Z;
}.

(** The database as the repository sees it: the table keyed by its
    conflict target [modelId], and the number of statements sent to it. *)
Record Db : Type := mkDb {
  rows : gmap string Row;
  roundTrips : nat;
}.

Module pgOpenRouterPricingRepository.
Section Repository.
Context `{Host}.
(** the default of the [updatedAt] column (declared in [schema.pg]) *)
Variable updatedAtDefault : Z.

(** [upsert(p)], run at time [now]: insert the values, or on a conflict
    on [modelId] overwrite the prices, the currency and [updatedAt]. *)
Definition upsert (p : OpenRouterPricing) (now : Z) (db : Db) : Db :=
  let values stamp :=
    mkRow (pModelId p)
          (NumberToString (promptPrice p))
          (NumberToString (completionPrice p))
          (NumberToString <$> requestPrice p)
          (currency p)
          stamp in
  let row :=
    match rows db !! pModelId p with
    | None => values updatedAtDefault
    | Some _ => values now
    end in
  mkDb (<[pModelId p := row]> (rows db)) (S (roundTrips db)).

Definition ofRow (r : Row) : OpenRouterPricing :=
  mkPricing (rowModelId r)
            (StringToNumber (rowPromptPrice r))
            (StringToNumber (rowCompletionPrice r))
            (StringToNumber <$> rowRequestPrice r)
            (rowCurrency r)
            (Some (rowUpdatedAt r)).

(** [getByModelIds(ids)]: the result and the database afterwards. *)
Definition getByModelIds (ids : list string) (db : Db)
    : list OpenRouterPricing * Db :=
  if (length ids =? 0)%nat then ([], db)
  else
    let selected :=
      filter (fun r => rowModelId r ∈ ids) (map snd (map_to_list (rows db))) in
    (map ofRow selected, mkDb (rows db) (S (roundTrips db))).
End Repository.
End pgOpenRouterPricingRepository.

(** ** The model registry: static tables *)

Definition openai (r : nat) (id : string) : Handle := mkHandle r "openai" id.
Definition google (r : nat) (id : string) : Handle := mkHandle r "google" id.
Definition anthropic (r : nat) (id : string) : Handle := mkHandle r "anthropic" id.
Definition xai (r : nat) (id : string) : Handle := mkHandle r "xai" id.
Definition ollama (r : nat) (id : string) : Handle := mkHandle r "ollama" id.
Definition groq (r : nat) (id : string) : Handle := mkHandle r "groq" id.
Definition openrouter (r : nat) (id : string) : Handle := mkHandle r "openrouter" id.

(** [staticModels]; the handles are numbered in the order in which the
    factory calls of this module construct them (the seed of the dynamic
    table continues the count). *)
Definition staticModels : gmap string ModelMap :=
  list_to_map
    [ ("openai", plain
         [ ("gpt-4.1", openai 0 "gpt-4.1");
           ("gpt-4.1-mini", openai 1 "gpt-4.1-migrate");
           ("o4-mini", openai 2 "o4-mini");
           ("o3", openai 3 "o3");
           ("gpt-5", openai 4 "gpt-5");
           ("gpt-5-mini", openai 5 "gpt-5-mini");
           ("gpt-5-nano", openai 6 "gpt-5-nano") ]);
      ("google", plain
         [ ("gemini-2.5-flash-lite", google 7 "gemini-2.5-flash-lite");
           ("gemini-2.5-flash", google 8 "gemini-2.5-flash");
           ("gemini-2.5-pro", google 9 "gemini-2.5-pro") ]);
      ("anthropic", plain
         [ ("claude-4-sonnet", anthropic 10 "claude-4-sonnet-20250514");
           ("claude-4-opus", anthropic 11 "claude-4-opus-20250514");
           ("claude-3-7-sonnet", anthropic 12 "claude-3-7-sonnet-20250219") ]);
      ("xai", plain
         [ ("grok-4", xai 13 "grok-4");
           ("grok-4-fast", xai 14 "grok-4-fast-non-reasoning");
           ("grok-3", xai 15 "grok-3");
           ("grok-3-mini", xai 16 "grok-3-mini") ]);
      ("ollama", plain
         [ ("gemma3:1b", ollama 17 "gemma3:1b");
           ("gemma3:4b", ollama 18 "gemma3:4b");
           ("gemma3:12b", ollama 19 "gemma3:12b") ]);
      ("groq", plain
         [ ("kimi-k2-instruct", groq 20 "moonshotai/kimi-k2-instruct");
           ("llama-4-scout-17b", groq 21 "meta-llama/llama-4-scout-17b-16e-instruct");
           ("gpt-oss-20b", groq 22 "openai/gpt-oss-20b");
           ("gpt-oss-120b", groq 23 "openai/gpt-oss-120b");
           ("qwen3-32b", groq 24 "qwen/qwen3-32b") ]);
      ("openRouter", plain []) ].

(** [staticModels.p[m]] for a provider and model the table is known to
    hold (the module body reads five such entries). *)
Definition staticEntry (p m : string) : list Handle :=
  match staticModels !! p with
  | Some models => option_list (own models !! m)
  | None => []
  end.

Definition staticUnsupportedModels : list Handle :=
  (staticEntry "openai" "o4-mini" ++
   staticEntry "ollama" "gemma3:1b" ++
   staticEntry "ollama" "gemma3:4b" ++
   staticEntry "ollama" "gemma3:12b")%list.

(** [const fallbackModel = staticModels.openai["gpt-4.1"]] *)
Definition fallbackModel : Handle := openai 0 "gpt-4.1".

(** The initial value of [openRouterDynamicModels]. *)
Definition seedModels : ModelMap :=
  plain
    [ ("gpt-oss-20b:free", openrouter 25 "openai/gpt-oss-20b:free");
      ("qwen3-8b:free", openrouter 26 "qwen/qwen3-8b:free");
      ("qwen3-14b:free", openrouter 27 "qwen/qwen3-14b:free");
      ("qwen3-coder:free", openrouter 28 "qwen/qwen3-coder:free");
      ("deepseek-r1:free", openrouter 29 "deepseek/deepseek-r1-0528:free");
      ("deepseek-v3:free", openrouter 30 "deepseek/deepseek-chat-v3-0324:free");
      ("gemini-2.0-flash-exp:free", openrouter 31 "google/gemini-2.0-flash-exp:free") ].

(** ** Environment and credentials *)

(** [process.env] *)
Abbreviation Env := (gmap string string).

(** [!!key && key != "****"] *)
Definition usableKey (key : option string) : bool :=
  match key with
  | None => false
  | Some k => negb (String.eqb k "") && negb (String.eqb k "****")
  end.

Definition checkProviderAPIKey (env : Env) (provider : string) : bool :=
  if String.eqb provider "openai" then usableKey (env !! "OPENAI_API_KEY")
  else if String.eqb provider "google" then usableKey (env !! "GOOGLE_GENERATIVE_AI_API_KEY")
  else if String.eqb provider "anthropic" then usableKey (env !! "ANTHROPIC_API_KEY")
  else if String.eqb provider "xai" then usableKey (env !! "XAI_API_KEY")
  else if String.eqb provider "ollama" then usableKey (env !! "OLLAMA_API_KEY")
  else if String.eqb provider "groq" then usableKey (env !! "GROQ_API_KEY")
  else if String.eqb provider "openRouter" then usableKey (env !! "OPENROUTER_API_KEY")
  else true.

(** ** Module state *)

(** The module-level bindings, and three counters that record what the
    module has done: how often [refreshOpenRouterModels] was entered, which
    upserts it has issued, and how many handles have been allocated. *)
Record Module : Type := mkModule {
  openRouterDynamicModels : ModelMap;
  openRouterRefreshTimer : bool;
  allUnsupportedModels : gset Handle;
  inFlight : nat;
  refreshCalls : nat;
  upsertCalls : list OpenRouterPricing;
  nextRef : nat;
}.

(** What the awaited [fetch] of one refresh yields: the promise rejects,
    or a response arrives with its [ok] flag and, if [response.json()]
    resolves, the parsed body. *)
Inductive FetchOutcome : Type :=
| FetchRejected
| FetchResponse (ok : bool) (body : option Json).

(** ** The refresher *)

(** The locals of the loop, and the allocation counter. *)
Record LoopState : Type := mkLoop {
  fresh : ModelMap;
  upserts : list OpenRouterPricing;
  next : nat;
}.

(** [Array.isArray(data?.data) ? data.data
     : Array.isArray(data?.models) ? data.models : []] *)
Definition entryList (data : Json) : list Json :=
  match getProp (Some data) "data" with
  | Some (JArray l) => l
  | _ =>
      match getProp (Some data) "models" with
      | Some (JArray l) => l
      | _ => []
      end
  end.

Section Refresher.
Context `{Host}.

(** The conversions of one entry's pricing, in program order; [None]
    when the entry gets no upsert. *)
Definition pricingOf (id : string) (m : Json) : Completion (option OpenRouterPricing) :=
  let pricing := getProp (Some m) "pricing" in
  if truthyJ pricing && truthyJ (getProp pricing "prompt")
     && truthyJ (getProp pricing "completion")
  then
    promptPrice ← ToNumber (getProp pricing "prompt");
    completionPrice ← ToNumber (getProp pricing "completion");
    requestPrice ←
      (if truthyJ (getProp pricing "request")
       then x ← ToNumber (getProp pricing "request"); Normal (Some x)
       else Normal None);
    if negb (isNaN promptPrice) && negb (isNaN completionPrice)
    then Normal (Some (mkPricing id promptPrice completionPrice requestPrice "USD" None))
    else Normal None
  else Normal None.

(** One iteration of [for (const m of list)].  The boolean is [false]
    when the iteration throws. *)
Definition iteration (m : Json) (acc : LoopState) : LoopState * bool :=
  match getProp (Some m) "id" with
  | Some (JString id) =>
      if String.eqb id "" then (acc, true)
      else
        let acc1 :=
          mkLoop (setProp (fresh acc) id (openrouter (next acc) id))
                 (upserts acc) (S (next acc)) in
        match pricingOf id m with
        | Throw => (acc1, false)
        | Normal None => (acc1, true)
        | Normal (Some p) =>
            (mkLoop (fresh acc1) (upserts acc1 ++ [p])%list (next acc1), true)
        end
  | _ => (acc, true)
  end.

Fixpoint loop (entries : list Json) (acc : LoopState) : LoopState * bool :=
  match entries with
  | [] => (acc, true)
  | m :: rest =>
      let '(acc1, completed) := iteration m acc in
      if completed then loop rest acc1 else (acc1, false)
  end.

(** [!apiKey || apiKey === "****"] *)
Definition apiKeyMissing (env : Env) : bool :=
  match env !! "OPENROUTER_API_KEY" with
  | None => true
  | Some apiKey => String.eqb apiKey "" || String.eqb apiKey "****"
  end.

(** The part of [refreshOpenRouterModels] before the fetch is awaited:
    the call returns at once without a key, and otherwise leaves one
    more fetch in flight. *)
Definition refreshBegin (env : Env) (st : Module) : Module :=
  mkModule (openRouterDynamicModels st) (openRouterRefreshTimer st)
           (allUnsupportedModels st)
           (if apiKeyMissing env then inFlight st else S (inFlight st))
           (S (refreshCalls st)) (upsertCalls st) (nextRef st).

(** The part after the fetch has settled, inside [try]/[catch]. *)
Definition refreshResume (net : FetchOutcome) (st : Module) : Module :=
  let settled table calls allocated :=
    mkModule table (openRouterRefreshTimer st) (allUnsupportedModels st)
             (pred (inFlight st)) (refreshCalls st) calls allocated in
  let unchanged :=
    settled (openRouterDynamicModels st) (upsertCalls st) (nextRef st) in
  match net with
  | FetchRejected => unchanged
  | FetchResponse false _ => unchanged
  | FetchResponse true None => unchanged
  | FetchResponse true (Some data) =>
      let '(acc, completed) :=
        loop (entryList data) (mkLoop (plain []) [] (nextRef st)) in
      let table :=
        if completed && (0 <? size (own (fresh acc)))%nat
        then fresh acc
        else openRouterDynamicModels st in
      settled table (upsertCalls st ++ upserts acc)%list (next acc)
  end.

(** One whole run of [refreshOpenRouterModels], given the environment it
    starts in and what its fetch yields. *)
Definition refreshOpenRouterModels (env : Env) (net : FetchOutcome) (st : Module)
    : Module :=
  if apiKeyMissing env then refreshBegin env st
  else refreshResume net (refreshBegin env st).
End Refresher.

(** ** The registry *)

(** [type ChatModel] *)
Record ChatModel : Type := mkChatModel {
  provider : string;
  model : string;
}.

(** [{ ...target, ...source }]: the properties of [source] are defined
    over those already copied. *)
Definition spread {A} (target source : gmap string A) : gmap string A :=
  source ∪ target.

Record ModelInfo : Type := mkModelInfo {
  name : string;
  isToolCallUnsupported : bool;
}.

Record ProviderInfo : Type := mkProviderInfo {
  infoProvider : string;
  models : list ModelInfo;
  hasAPIKey : bool;
}.

Section Registry.
Context `{Host}.
(** The two results of [createOpenAICompatibleModels], defined in
    [./create-openai-compatiable]: the provider tables and the handles
    flagged as not supporting tool calls. *)
Variable openaiCompatibleModels : gmap string ModelMap.
Variable openaiCompatibleUnsupportedModels : list Handle.

(** The module state after the declarations, before
    [startOpenRouterRefreshSchedule()] runs. *)
Definition declared : Module :=
  mkModule seedModels false
           (list_to_set (openaiCompatibleUnsupportedModels ++ staticUnsupportedModels)%list)
           0 0 [] 32.

Definition startOpenRouterRefreshSchedule (env : Env) (st : Module) : Module :=
  if negb (checkProviderAPIKey env "openRouter") then st
  else
    let st1 := refreshBegin env st in
    if negb (openRouterRefreshTimer st1)
    then mkModule (openRouterDynamicModels st1) true (allUnsupportedModels st1)
                  (inFlight st1) (refreshCalls st1) (upsertCalls st1) (nextRef st1)
    else st1.

(** The module once loaded in environment [env]. *)
Definition loaded (env : Env) : Module :=
  startOpenRouterRefreshSchedule env declared.

(** What can happen to the module state afterwards: the interval timer,
    if one was installed, enters a refresh; a fetch in flight settles. *)
Inductive step : Module → Module → Prop :=
| step_timer (env : Env) (st : Module) :
    openRouterRefreshTimer st = true →
    step st (refreshBegin env st)
| step_settle (net : FetchOutcome) (st : Module) :
    (0 < inFlight st)%nat →
    step st (refreshResume net st).

Definition reachable (env : Env) : Module → Prop := rtc step (loaded env).

Definition getAllModels (st : Module) : gmap string ModelMap :=
  spread (spread ∅ openaiCompatibleModels)
         (<["openRouter" := openRouterDynamicModels st]> (spread ∅ staticModels)).

Definition isToolCallUnsupportedModel (st : Module) (h : Handle) : bool :=
  bool_decide (h ∈ allUnsupportedModels st).

Definition modelsInfo (env : Env) (st : Module) : list ProviderInfo :=
  let current := getAllModels st in
  map (fun entry : string * ModelMap =>
         mkProviderInfo
           entry.1
           (map (fun e : string * Handle =>
                   mkModelInfo e.1 (isToolCallUnsupportedModel st e.2))
                (map_to_list (own entry.2)))
           (checkProviderAPIKey env entry.1))
      (map_to_list current).

Definition getModel (st : Module) (request : option ChatModel)
    : Completion (Value HostVal) :=
  match request with
  | None => Normal (VHandle fallbackModel)
  | Some m =>
      let current := getAllModels st in
      v ← optChain (lookupPlain VModelMap current (provider m)) (model m);
      Normal (orElse v (VHandle fallbackModel))
  end.
End Registry.

(** ** A host fragment *)

(** A partial rendition of an ECMAScript host, enough to run the program
    on concrete inputs.  It is faithful on what the examples below touch:
    the names [Object.prototype] defines, the [name] of a built-in
    function, the [modelId] of a handle, [Number] of the empty string, of
    decimal digits and of text that is no numeric literal, [String] of
    NaN, of the infinities and of whole numbers.  Outside of that it is a
    stand-in: every other read yields [undefined], every other string
    converts to NaN, and fractions are not printed as an engine prints
    them. *)
Inductive EsVal : Type :=
| EsObject (what : string)
| EsFunction (fname : string)
| EsString (s : string).

Definition objectPrototypeMethods : list string :=
  [ "__defineGetter__"; "__defineSetter__"; "hasOwnProperty";
    "__lookupGetter__"; "__lookupSetter__"; "isPrototypeOf";
    "propertyIsEnumerable"; "toString"; "valueOf"; "toLocaleString" ].

Fixpoint digitsValue (s : string) (acc : N) : option N :=
  match s with
  | EmptyString => Some acc
  | String c rest =>
      let n := Ascii.N_of_ascii c in
      if (48 <=? n)%N && (n <=? 57)%N
      then digitsValue rest (10 * acc + (n - 48))%N
      else None
  end.

Fixpoint digitsOf (fuel : nat) (n : N) (tail : string) : string :=
  match fuel with
  | O => tail
  | S fuel' =>
      let d := String (Ascii.ascii_of_N (48 + n mod 10)%N) tail in
      if (n <? 10)%N then d else digitsOf fuel' (n / 10)%N d
  end.

#[global] Instance fragmentHost : Host := {|
  StringToNumber s :=
    if String.eqb s "" then numZero
    else match digitsValue s 0 with
         | Some n => Dyadic false n 0
         | None => NaN
         end;
  NumberToString x :=
    match x with
    | NaN => "NaN"
    | Infinity false => "Infinity"
    | Infinity true => "-Infinity"
    | Dyadic neg mant exp =>
        let n := (mant * 2 ^ Z.to_N exp)%N in
        if (n =? 0)%N then "0"
        else (if neg then "-" else "") ++ digitsOf (S (N.to_nat (N.log2 n))) n ""
    end;
  HostVal := EsVal;
  hostTruthy o :=
    match o with
    | EsString s => negb (String.eqb s "")
    | _ => true
    end;
  hostNullish _ := false;
  objectPrototypeGet k :=
    if String.eqb k "constructor" then Some (EsFunction "Object")
    else if String.eqb k "__proto__" then Some (EsObject "Object.prototype")
    else if bool_decide (k ∈ objectPrototypeMethods) then Some (EsFunction k)
    else None;
  hostGet o k :=
    match o with
    | EsFunction f => if String.eqb k "name" then Normal (VHost (EsString f))
                      else Normal VUndefined
    | _ => Normal VUndefined
    end;
  handleGet h k :=
    if String.eqb k "modelId" then Normal (VHost (EsString (modelId h)))
    else Normal VUndefined;
|}.

(** ** Vocabulary of the properties *)

(** The environment variable the [switch] reads for each provider it
    names. *)
Definition staticSecrets : list (string * string) :=
  [ ("openai", "OPENAI_API_KEY");
    ("google", "GOOGLE_GENERATIVE_AI_API_KEY");
    ("anthropic", "ANTHROPIC_API_KEY");
    ("xai", "XAI_API_KEY");
    ("ollama", "OLLAMA_API_KEY");
    ("groq", "GROQ_API_KEY");
    ("openRouter", "OPENROUTER_API_KEY") ].

Section Vocabulary.
Context `{Host}.

(** Any number of refreshes, one after the other. *)
Definition refreshes (runs : list (Env * FetchOutcome)) (st : Module) : Module :=
  foldl (fun s run => refreshOpenRouterModels run.1 run.2 s) st runs.

(** The identifier under which the loop files an entry: [m?.id] when it
    is a string and not empty. *)
Definition entryId (m : Json) : option string :=
  match getProp (Some m) "id" with
  | Some (JString id) => if String.eqb id "" then None else Some id
  | _ => None
  end.

(** The upsert the loop issues for an entry, if any, and whether the
    entry's iteration throws. *)
Definition entryUpsert (m : Json) : list OpenRouterPricing :=
  match entryId m with
  | Some id =>
      match pricingOf id m with
      | Normal (Some p) => [p]
      | _ => []
      end
  | None => []
  end.

Definition entryThrows (m : Json) : bool :=
  match entryId m with
  | Some id =>
      match pricingOf id m with
      | Throw => true
      | _ => false
      end
  | None => false
  end.

(** The entries the loop gets to: all of them up to and including the
    first whose iteration throws. *)
Fixpoint processed (entries : list Json) : list Json :=
  match entries with
  | [] => []
  | m :: rest => if entryThrows m then [m] else m :: processed rest
  end.


End Vocabulary.

(** ** Endpoints *)

From Stdlib Require Import Ascii.

(** [s.replace(/\/$/, "")]: a slash that ends the string is removed, one
    at most. *)
Fixpoint stripTrailingSlash (s : string) : string :=
  match s with
  | EmptyString => EmptyString
  | String c rest =>
      match rest with
      | EmptyString => if Ascii.eqb c "/"%char then EmptyString else s
      | String _ _ => String c (stripTrailingSlash rest)
      end
  end.

(** Whether the last code unit of a string is a slash. *)
Fixpoint endsWithSlash (s : string) : bool :=
  match s with
  | EmptyString => false
  | String c rest =>
      match rest with
      | EmptyString => Ascii.eqb c "/"%char
      | String _ _ => endsWithSlash rest
      end
  end.

(** [v || d] where [v] is a string or [undefined]: the empty string is
    falsy. *)
Definition orDefault (v : option string) (d : string) : string :=
  match v with
  | Some s => if String.eqb s "" then d else s
  | None => d
  end.

Definition OPENROUTER_MODELS_ENDPOINT (env : Env) : string :=
  orDefault (stripTrailingSlash <$> env !! "OPENROUTER_BASE_URL")
            "https://openrouter.ai/api/v1"
  ++ "/models".

(** ** The pie chart: the text of the centre value *)

(** In [components/tool-invocation/pie-chart.tsx] a string is handled by
    its code units (tests on the last one, [split], [slice]); here it is
    the list of them. *)

(** [a-zA-Z] *)
Definition isLetter (c : ascii) : bool :=
  let n := Ascii.nat_of_ascii c in
  ((65 <=? n) && (n <=? 90))%nat || ((97 <=? n) && (n <=? 122))%nat.

(** [/[a-zA-Z]+$/.test(value)] *)
Definition endsWithLetter (value : list ascii) : bool :=
  match last value with
  | Some c => isLetter c
  | None => false
  end.

(** [value.split(sep)] for a separator of one code unit. *)
Fixpoint split (sep : ascii) (value : list ascii) : list (list ascii) :=
  match value with
  | [] => [[]]
  | c :: rest =>
      if Ascii.eqb c sep then [] :: split sep rest
      else match split sep rest with
           | part :: parts => (c :: part) :: parts
           | [] => [[c]]
           end
  end.

(** [s.slice(0, e)] for an integral [e]: a negative end counts from the
    end of the string. *)
Definition sliceFromStart (s : list ascii) (e : Z) : list ascii :=
  let len := Z.of_nat (length s) in
  let stop := if (e <? 0)%Z then Z.max (len + e) 0 else Z.min e len in
  take (Z.to_nat stop) s.

(** [s.replace(/0+$/g, "")] *)
Fixpoint stripTrailingZeros (s : list ascii) : list ascii :=
  match s with
  | [] => []
  | c :: rest =>
      match stripTrailingZeros rest with
      | [] => if Ascii.eqb c "0"%char then [] else [c]
      | kept => c :: kept
      end
  end.

Definition limitDecimalsString (value : list ascii) (maxDecimals : Z) : list ascii :=
  if endsWithLetter value then value
  else if negb (bool_decide ("."%char ∈ value)) then value
  else
    let parts := split "."%char value in
    let intPart := nth 0 parts [] in
    let decPart := nth 1 parts [] in
    let trimmed := stripTrailingZeros (sliceFromStart decPart maxDecimals) in
    if (0 <? length trimmed)%nat then intPart ++ "."%char :: trimmed else intPart.

(** ** More vocabulary *)

(** What the refresher hands to [upsert]: a model id that is not empty,
    the currency USD, no [updatedAt], and two prices that are not NaN. *)
Definition wellFormedUpsert (p : OpenRouterPricing) : Prop :=
  pModelId p ≠ "" ∧ currency p = "USD" ∧ updatedAt p = None
  ∧ isNaN (promptPrice p) = false ∧ isNaN (completionPrice p) = false.

(** What the module state keeps true: the dynamic table owns at least one
    model, files none under the empty name, and holds openrouter handles
    allocated before now; the upserts issued are well formed; no more
    fetches are in flight than refreshes were entered. *)
Definition moduleInvariant (st : Module) : Prop :=
  (0 < size (own (openRouterDynamicModels st)))%nat
  ∧ (∀ k h, own (openRouterDynamicModels st) !! k = Some h →
       k ≠ "" ∧ sdk h = "openrouter" ∧ (ref h < nextRef st)%nat)
  ∧ Forall wellFormedUpsert (upsertCalls st)
  ∧ (inFlight st ≤ refreshCalls st)%nat.

(** Every row is filed under its own [modelId], as rows written by
    [upsert] are. *)
Definition wellFiled (db : Db) : Prop :=
  ∀ k r, rows db !! k = Some r → rowModelId r = k.

(** * Properties *)

(** ** Basic facts about the tables *)

Lemma fallbackModel_is_static_entry :
  staticEntry "openai" "gpt-4.1" = [fallbackModel].
Proof. reflexivity. Qed.

Lemma staticUnsupportedModels_eq :
  staticUnsupportedModels =
  [ openai 2 "o4-mini"; ollama 17 "gemma3:1b";
    ollama 18 "gemma3:4b"; ollama 19 "gemma3:12b" ].
Proof. reflexivity. Qed.

Lemma spread_lookup {A} (target source : gmap string A) (k : string) :
  spread target source !! k =
  match source !! k with
  | Some v => Some v
  | None => target !! k
  end.
Proof.
  unfold spread. rewrite lookup_union.
  destruct (source !! k), (target !! k); reflexivity.
Qed.

Lemma spread_empty {A} (source : gmap string A) : spread ∅ source = source.
Proof. unfold spread. apply (right_id_L ∅ (∪)). Qed.

(** ** The pricing repository *)

Lemma getByModelIds_round_trip `{Host} (id : string) (ids : list string) (db : Db) :
  roundTrips (pgOpenRouterPricingRepository.getByModelIds (id :: ids) db).2
  = S (roundTrips db).
Proof. reflexivity. Qed.

Lemma filter_none {A} (P : A → Prop) `{∀ x, Decision (P x)} (l : list A) :
  Forall (fun x => ¬ P x) l → filter P l = [].
Proof.
  induction 1 as [|x l Hx _ IH]; [reflexivity|].
  rewrite filter_cons, decide_False by exact Hx. exact IH.
Qed.

(** X13. Reading back what was just written, in a table whose rows are
    filed under their own [modelId]: one record, for that [modelId], whose
    prices are the written numbers printed by [String] and read by
    [Number], a null request price staying null. *)
Lemma upsert_then_getByModelIds `{Host} (dflt now : Z) (p : OpenRouterPricing) (db : Db) :
  (∀ k r, rows db !! k = Some r → rowModelId r = k) →
  (pgOpenRouterPricingRepository.getByModelIds [pModelId p]
     (pgOpenRouterPricingRepository.upsert dflt p now db)).1
  = [mkPricing (pModelId p)
       (StringToNumber (NumberToString (promptPrice p)))
       (StringToNumber (NumberToString (completionPrice p)))
       (StringToNumber <$> (NumberToString <$> requestPrice p))
       (currency p)
       (Some (match rows db !! pModelId p with
              | Some _ => now
              | None => dflt
              end))].
Proof.
  intros Hkeys.
  unfold pgOpenRouterPricingRepository.getByModelIds,
    pgOpenRouterPricingRepository.upsert.
  cbn [length Nat.eqb fst rows].
  set (row := match rows db !! pModelId p with
              | Some _ => _
              | None => _
              end).
  assert (Hsel : filter (fun r => rowModelId r ∈ [pModelId p])
                   (map snd (map_to_list (<[pModelId p := row]> (rows db))))
                 = [row]).
  { apply Permutation_singleton_r.
    rewrite <- insert_delete_eq.
    rewrite map_to_list_insert by apply lookup_delete_eq.
    cbn [map snd]. rewrite filter_cons.
    assert (Hrow : rowModelId row = pModelId p).
    { subst row. by destruct (rows db !! pModelId p). }
    rewrite decide_True by (rewrite Hrow; left).
    rewrite filter_none; [reflexivity|].
    apply Forall_forall. intros r Hr.
    apply list_elem_of_In, in_map_iff in Hr. destruct Hr as [[k r'] [<- Hin]].
    apply list_elem_of_In, elem_of_map_to_list in Hin. cbn [snd].
    apply lookup_delete_Some in Hin as [Hne Hk].
    rewrite (Hkeys k r' Hk). rewrite list_elem_of_singleton. congruence. }
  rewrite Hsel. cbn [map]. subst row. unfold pgOpenRouterPricingRepository.ofRow.
  by destruct (rows db !! pModelId p).
Qed.

(** C9. [getByModelIds] on the empty list returns the empty result and
    leaves the database as it was: no statement is sent, the count of
    round trips stays the same. *)
Theorem getByModelIds_empty `{Host} (db : Db) :
  pgOpenRouterPricingRepository.getByModelIds [] db = ([], db)
  ∧ roundTrips (pgOpenRouterPricingRepository.getByModelIds [] db).2 = roundTrips db.
Proof. split; reflexivity. Qed.

(** ** Credentials *)

Lemma usableKey_true (key : option string) :
  usableKey key = true ↔ ∃ k, key = Some k ∧ k ≠ "" ∧ k ≠ "****".
Proof.
  destruct key as [k|]; simpl.
  - rewrite andb_true_iff, !negb_true_iff, !String.eqb_neq. split.
    + intros [Hne Hph]. exists k. auto.
    + intros (k' & [= <-] & Hne & Hph). auto.
  - split; [discriminate|]. intros (k & Hk & _). discriminate.
Qed.

Lemma usableKey_false (key : option string) :
  usableKey key = false ↔ key = None ∨ key = Some "" ∨ key = Some "****".
Proof.
  destruct key as [k|]; simpl.
  - rewrite andb_false_iff, !negb_false_iff, !String.eqb_eq. split.
    + intros [->| ->]; auto.
    + intros [Hk|[[= ->]|[= ->]]]; [discriminate|auto..].
  - split; auto.
Qed.

Lemma checkProviderAPIKey_static (env : Env) (p var : string) :
  (p, var) ∈ staticSecrets →
  checkProviderAPIKey env p = usableKey (env !! var).
Proof.
  unfold staticSecrets. rewrite !elem_of_cons, elem_of_nil.
  intros Hin. repeat destruct Hin as [Hin|Hin]; try done;
    injection Hin as -> ->; reflexivity.
Qed.

Lemma checkProviderAPIKey_other (env : Env) (p : string) :
  p ∉ staticSecrets.*1 → checkProviderAPIKey env p = true.
Proof.
  intros Hnot. unfold checkProviderAPIKey.
  repeat match goal with
         | |- context [String.eqb p ?s] =>
             destruct (String.eqb_spec p s) as [->|_];
             [exfalso; apply Hnot; simpl; set_solver|]
         end.
  reflexivity.
Qed.

(** C7, the claim as stated fails: a provider the [switch] does not name
    (every openai-compatible provider is one) passes the check in the empty
    environment, where no secret of any name is present. *)
Lemma checkProviderAPIKey_unnamed_provider :
  checkProviderAPIKey ∅ "my-compatible-provider" = true
  ∧ (∀ var, (∅ : Env) !! var = None)
  ∧ "my-compatible-provider" ∈ dom (getAllModels
        {[ "my-compatible-provider" := plain [] ]} (declared [])).
Proof.
  split; [reflexivity|]. split; [intros var; apply lookup_empty|].
  apply elem_of_dom. eexists. reflexivity.
Qed.

(** C7, amended.  For each of the seven providers the [switch] names, the
    check is true exactly when that provider's variable is present, not
    empty and not the placeholder; for every other provider it is true
    whatever the environment holds; it is a function of the environment
    alone, and every entry of [modelsInfo] carries the check's value in the
    environment of that very call. *)
Theorem checkProviderAPIKey_spec (env : Env) :
  (∀ p var, (p, var) ∈ staticSecrets →
     (checkProviderAPIKey env p = true
      ↔ ∃ k, env !! var = Some k ∧ k ≠ "" ∧ k ≠ "****"))
  ∧ (∀ p, p ∉ staticSecrets.*1 → checkProviderAPIKey env p = true)
  ∧ (∀ compat st info,
       info ∈ modelsInfo compat env st →
       hasAPIKey info = checkProviderAPIKey env (infoProvider info)).
Proof.
  split; [|split].
  - intros p var Hin. rewrite (checkProviderAPIKey_static env p var Hin).
    apply usableKey_true.
  - apply checkProviderAPIKey_other.
  - intros compat st info Hin.
    unfold modelsInfo in Hin. apply list_elem_of_In, in_map_iff in Hin.
    destruct Hin as [entry [<- _]]. reflexivity.
Qed.

Lemma checkProviderAPIKey_spec_witness :
  checkProviderAPIKey {[ "OPENAI_API_KEY" := "sk-live" ]} "openai" = true
  ∧ checkProviderAPIKey {[ "OPENAI_API_KEY" := "****" ]} "openai" = false.
Proof.
  split.
  - apply (proj1 (checkProviderAPIKey_spec
                    {[ "OPENAI_API_KEY" := "sk-live" ]}) "openai" "OPENAI_API_KEY").
    + unfold staticSecrets. left.
    + exists "sk-live". split; [reflexivity|]. split; discriminate.
  - reflexivity.
Defined.

(** ** The combined table *)

Section CombinedTable.
Context `{Host}.
Variable openaiCompatibleModels : gmap string ModelMap.

Lemma getAllModels_lookup (st : Module) (p : string) :
  getAllModels openaiCompatibleModels st !! p =
  if decide (p = "openRouter") then Some (openRouterDynamicModels st)
  else match staticModels !! p with
       | Some m => Some m
       | None => openaiCompatibleModels !! p
       end.
Proof.
  unfold getAllModels. rewrite !spread_empty, spread_lookup.
  destruct (decide (p = "openRouter")) as [->|Hne].
  - by rewrite lookup_insert_eq.
  - by rewrite lookup_insert_ne.
Qed.

(** C10. A provider name that the openai-compatible tables and the
    static tables both define resolves, in the table [getModel] and
    [modelsInfo] read, to the static provider's model map (for
    [openRouter], to the current dynamic table); the compatible map of
    that name is never seen.  So [getModel] answers with the static
    handle, and [modelsInfo] lists the static map's models. *)
Theorem static_shadows_compatible (st : Module) (p : string) (c m : ModelMap) :
  openaiCompatibleModels !! p = Some c →
  staticModels !! p = Some m →
  let shown := if decide (p = "openRouter") then openRouterDynamicModels st else m in
  getAllModels openaiCompatibleModels st !! p = Some shown
  ∧ (∀ k h, own shown !! k = Some h →
       getModel openaiCompatibleModels st (Some (mkChatModel p k)) = Normal (VHandle h))
  ∧ (∀ env info, info ∈ modelsInfo openaiCompatibleModels env st →
       infoProvider info = p →
       models info = map (fun e : string * Handle =>
                            mkModelInfo e.1 (isToolCallUnsupportedModel st e.2))
                         (map_to_list (own shown))).
Proof.
  intros Hc Hm shown.
  assert (Hlook : getAllModels openaiCompatibleModels st !! p = Some shown).
  { rewrite getAllModels_lookup. subst shown.
    destruct (decide (p = "openRouter")); [done|]. by rewrite Hm. }
  split; [exact Hlook|split].
  - intros k h Hk. unfold getModel, lookupPlain. simpl. rewrite Hlook.
    unfold optChain, getV. simpl. rewrite Hk. reflexivity.
  - intros env info Hin Hp. unfold modelsInfo in Hin.
    apply list_elem_of_In, in_map_iff in Hin.
    destruct Hin as [[p' m'] [<- Hin]]. simpl in *. subst p'.
    apply list_elem_of_In, elem_of_map_to_list in Hin.
    rewrite Hlook in Hin. by injection Hin as ->.
Qed.
End CombinedTable.

Lemma static_shadows_compatible_witness :
  let compat : gmap string ModelMap :=
    {[ "openai" := plain [("gpt-4.1", mkHandle 100 "acme" "gpt-4.1")] ]} in
  getAllModels compat (declared []) !! "openai" = staticModels !! "openai"
  ∧ getModel compat (declared []) (Some (mkChatModel "openai" "gpt-4.1"))
    = Normal (VHandle (openai 0 "gpt-4.1")).
Proof.
  intros compat.
  destruct (static_shadows_compatible compat (declared []) "openai"
              (plain [("gpt-4.1", mkHandle 100 "acme" "gpt-4.1")])
              (plain
                 [ ("gpt-4.1", openai 0 "gpt-4.1");
                   ("gpt-4.1-mini", openai 1 "gpt-4.1-migrate");
                   ("o4-mini", openai 2 "o4-mini");
                   ("o3", openai 3 "o3");
                   ("gpt-5", openai 4 "gpt-5");
                   ("gpt-5-mini", openai 5 "gpt-5-mini");
                   ("gpt-5-nano", openai 6 "gpt-5-nano") ]))
    as (Hlook & Hget & _).
  - reflexivity.
  - reflexivity.
  - split.
    + exact Hlook.
    + apply Hget. reflexivity.
Defined.

(** ** What a refresh leaves alone *)

Section Frame.
Context `{Host}.

Lemma refreshBegin_frame (env : Env) (st : Module) :
  openRouterDynamicModels (refreshBegin env st) = openRouterDynamicModels st
  ∧ openRouterRefreshTimer (refreshBegin env st) = openRouterRefreshTimer st
  ∧ allUnsupportedModels (refreshBegin env st) = allUnsupportedModels st
  ∧ upsertCalls (refreshBegin env st) = upsertCalls st
  ∧ nextRef (refreshBegin env st) = nextRef st.
Proof. repeat split. Qed.

Lemma refreshResume_frame (net : FetchOutcome) (st : Module) :
  openRouterRefreshTimer (refreshResume net st) = openRouterRefreshTimer st
  ∧ allUnsupportedModels (refreshResume net st) = allUnsupportedModels st
  ∧ refreshCalls (refreshResume net st) = refreshCalls st.
Proof.
  unfold refreshResume.
  destruct net as [|[] [data|]]; try (repeat split; fail).
  destruct (loop _ _) as [acc completed]. repeat split.
Qed.

Lemma refresh_unsupported (env : Env) (net : FetchOutcome) (st : Module) :
  allUnsupportedModels (refreshOpenRouterModels env net st) = allUnsupportedModels st.
Proof.
  unfold refreshOpenRouterModels. destruct (apiKeyMissing env).
  - apply refreshBegin_frame.
  - destruct (refreshResume_frame net (refreshBegin env st)) as (_ & -> & _).
    apply refreshBegin_frame.
Qed.

Lemma step_unsupported (st st' : Module) :
  step st st' → allUnsupportedModels st' = allUnsupportedModels st.
Proof.
  intros [env s _|net s _].
  - apply refreshBegin_frame.
  - apply refreshResume_frame.
Qed.

Lemma refreshes_unsupported (runs : list (Env * FetchOutcome)) (st : Module) :
  allUnsupportedModels (refreshes runs st) = allUnsupportedModels st.
Proof.
  revert st. induction runs as [|run runs IH]; intros st; [reflexivity|].
  change (refreshes (run :: runs) st)
    with (refreshes runs (refreshOpenRouterModels run.1 run.2 st)).
  rewrite IH. apply refresh_unsupported.
Qed.

Variable openaiCompatibleUnsupportedModels : list Handle.

Lemma loaded_unsupported (env : Env) :
  allUnsupportedModels (loaded openaiCompatibleUnsupportedModels env)
  = list_to_set (openaiCompatibleUnsupportedModels ++ staticUnsupportedModels)%list.
Proof.
  unfold loaded, startOpenRouterRefreshSchedule.
  destruct (negb (checkProviderAPIKey env "openRouter")); [reflexivity|].
  destruct (negb _); reflexivity.
Qed.

Lemma reachable_unsupported (env : Env) (st : Module) :
  reachable openaiCompatibleUnsupportedModels env st →
  allUnsupportedModels st
  = list_to_set (openaiCompatibleUnsupportedModels ++ staticUnsupportedModels)%list.
Proof.
  unfold reachable. revert st. apply rtc_ind_r.
  - apply loaded_unsupported.
  - intros s2 s3 _ Hstep IH. rewrite (step_unsupported _ _ Hstep). exact IH.
Qed.

(** C5. In every state the loaded module can reach,
    [isToolCallUnsupportedModel] is true of a handle only if (and if) the
    handle is one of those flagged by the openai-compatible layer or one
    of the four of the static denylist; and running refreshes, however
    many and with whatever responses, does not change its answer for any
    handle. *)
Theorem isToolCallUnsupportedModel_fixed (env : Env) (st : Module) (h : Handle) :
  reachable openaiCompatibleUnsupportedModels env st →
  (isToolCallUnsupportedModel st h = true
   ↔ h ∈ openaiCompatibleUnsupportedModels ∨ h ∈ staticUnsupportedModels)
  ∧ (∀ runs, isToolCallUnsupportedModel (refreshes runs st) h
             = isToolCallUnsupportedModel st h)
  ∧ (∀ st', rtc step st st' →
            isToolCallUnsupportedModel st' h = isToolCallUnsupportedModel st h).
Proof.
  intros Hreach. split; [|split].
  - unfold isToolCallUnsupportedModel.
    rewrite bool_decide_eq_true, (reachable_unsupported env st Hreach).
    rewrite elem_of_list_to_set, elem_of_app. reflexivity.
  - intros runs. unfold isToolCallUnsupportedModel.
    by rewrite refreshes_unsupported.
  - intros st' Hsteps. unfold isToolCallUnsupportedModel.
    rewrite (reachable_unsupported env st Hreach).
    rewrite (reachable_unsupported env st'); [reflexivity|].
    unfold reachable in *. by etrans.
Qed.
End Frame.

(** ** Without a credential *)

Section Schedule.
Context `{Host}.
Variable openaiCompatibleUnsupportedModels : list Handle.

Lemma checkProviderAPIKey_openRouter (env : Env) :
  checkProviderAPIKey env "openRouter" = usableKey (env !! "OPENROUTER_API_KEY").
Proof. reflexivity. Qed.

Lemma apiKeyMissing_usable (env : Env) :
  apiKeyMissing env = negb (usableKey (env !! "OPENROUTER_API_KEY")).
Proof.
  unfold apiKeyMissing, usableKey. destruct (env !! "OPENROUTER_API_KEY"); [|reflexivity].
  by rewrite negb_andb, !negb_involutive.
Qed.

(** With a usable key the module starts the schedule: the first refresh
    is entered, its fetch is in flight, and the timer is installed. *)
Lemma credential_starts_schedule (env : Env) :
  usableKey (env !! "OPENROUTER_API_KEY") = true →
  let st := loaded openaiCompatibleUnsupportedModels env in
  refreshCalls st = 1 ∧ inFlight st = 1 ∧ openRouterRefreshTimer st = true.
Proof.
  intros Hkey. unfold loaded, startOpenRouterRefreshSchedule.
  rewrite checkProviderAPIKey_openRouter, Hkey. simpl.
  rewrite apiKeyMissing_usable, Hkey. repeat split.
Qed.

(** C6. If the module is loaded in an environment where the openRouter
    key is absent, empty or the placeholder, then in every state it can
    reach afterwards (whatever the environment becomes and whatever the
    network would answer) [refreshOpenRouterModels] has never been
    entered, no timer is installed, no fetch is in flight, and the dynamic
    table is the seed. *)
Theorem no_credential_no_refresh (env : Env) (st : Module) :
  env !! "OPENROUTER_API_KEY" = None
  ∨ env !! "OPENROUTER_API_KEY" = Some ""
  ∨ env !! "OPENROUTER_API_KEY" = Some "****" →
  reachable openaiCompatibleUnsupportedModels env st →
  refreshCalls st = 0
  ∧ openRouterRefreshTimer st = false
  ∧ inFlight st = 0
  ∧ openRouterDynamicModels st = seedModels.
Proof.
  intros Hkey%usableKey_false Hreach. unfold reachable in Hreach.
  assert (Hst : st = declared openaiCompatibleUnsupportedModels).
  { revert st Hreach. apply rtc_ind_r.
    - unfold loaded, startOpenRouterRefreshSchedule.
      by rewrite checkProviderAPIKey_openRouter, Hkey.
    - intros s2 s3 _ Hstep ->.
      inversion Hstep as [env' s Htimer|net s Hflight]; subst.
      + discriminate Htimer.
      + simpl in Hflight. lia. }
  subst st. repeat split.
Qed.
End Schedule.

Lemma isToolCallUnsupportedModel_fixed_witness :
  let st := refreshResume (FetchResponse true (Some (JObject [])))
                          (loaded [] {[ "OPENROUTER_API_KEY" := "sk-or-1" ]}) in
  isToolCallUnsupportedModel st (openai 2 "o4-mini") = true
  ∧ isToolCallUnsupportedModel st (openai 0 "gpt-4.1") = false.
Proof.
  intros st.
  assert (Hreach : reachable [] {[ "OPENROUTER_API_KEY" := "sk-or-1" ]} st).
  { unfold reachable. eapply rtc_l; [|apply rtc_refl].
    apply step_settle. vm_compute. lia. }
  split.
  - apply (proj1 (isToolCallUnsupportedModel_fixed [] _ st _ Hreach)).
    right. rewrite staticUnsupportedModels_eq. left.
  - reflexivity.
Defined.

Lemma no_credential_no_refresh_witness :
  refreshCalls (loaded [] ∅) = 0
  ∧ openRouterRefreshTimer (loaded [] ∅) = false
  ∧ inFlight (loaded [] ∅) = 0
  ∧ openRouterDynamicModels (loaded [] ∅) = seedModels.
Proof.
  apply (no_credential_no_refresh [] ∅ (loaded [] ∅)).
  - left. reflexivity.
  - apply rtc_refl.
Defined.

(** ** The refresher *)

Section RefresherFacts.
Context `{Host}.

Lemma iteration_spec (m : Json) (acc : LoopState) :
  iteration m acc =
  match entryId m with
  | None => (acc, true)
  | Some id =>
      (mkLoop (setProp (fresh acc) id (openrouter (next acc) id))
              (upserts acc ++ entryUpsert m)%list
              (S (next acc)),
       negb (entryThrows m))
  end.
Proof.
  unfold iteration, entryUpsert, entryThrows, entryId.
  destruct (getProp (Some m) "id") as [[| | |id| |]|]; try reflexivity.
  destruct (String.eqb id ""); [destruct acc; reflexivity|].
  destruct (pricingOf id m) as [[p|]|]; simpl; by rewrite ?app_nil_r.
Qed.

Lemma processed_all (entries : list Json) :
  Forall (fun m => entryThrows m = false) entries → processed entries = entries.
Proof.
  induction 1 as [|m rest Hm _ IH]; [reflexivity|].
  simpl. by rewrite Hm, IH.
Qed.

Lemma processed_prefix (entries : list Json) : processed entries `prefix_of` entries.
Proof.
  induction entries as [|m rest IH]; simpl; [done|].
  destruct (entryThrows m).
  - by apply prefix_cons, prefix_nil.
  - by apply prefix_cons.
Qed.

(** An entry that is skipped, and one whose iteration throws, get no
    upsert. *)
Lemma entryId_None_quiet (m : Json) :
  entryId m = None → entryThrows m = false ∧ entryUpsert m = [].
Proof. intros Hid. unfold entryThrows, entryUpsert. by rewrite Hid. Qed.

Lemma entryThrows_quiet (m : Json) : entryThrows m = true → entryUpsert m = [].
Proof.
  unfold entryThrows, entryUpsert. destruct (entryId m) as [id|]; [|done].
  by destruct (pricingOf id m) as [[p|]|].
Qed.

(** The loop completes exactly when no iteration throws. *)
Lemma loop_completed (entries : list Json) (acc : LoopState) :
  (loop entries acc).2 = forallb (fun m => negb (entryThrows m)) entries.
Proof.
  revert acc. induction entries as [|m rest IH]; intros acc; [reflexivity|].
  cbn [loop forallb]. rewrite iteration_spec.
  destruct (entryId m) as [id|] eqn:Hid.
  - destruct (entryThrows m); cbn [negb andb snd]; [reflexivity|apply IH].
  - destruct (entryId_None_quiet m Hid) as [-> _]. cbn [negb andb]. apply IH.
Qed.

(** The upserts pushed are those of the entries the loop gets to, one
    after the other. *)
Lemma loop_upserts (entries : list Json) (acc : LoopState) :
  upserts (loop entries acc).1
  = (upserts acc ++ flat_map entryUpsert (processed entries))%list.
Proof.
  revert acc. induction entries as [|m rest IH]; intros acc.
  - cbn [loop processed flat_map fst]. by rewrite app_nil_r.
  - cbn [loop processed]. rewrite iteration_spec.
    destruct (entryId m) as [id|] eqn:Hid.
    + destruct (entryThrows m) eqn:Ht; cbn [negb fst flat_map upserts].
      * by rewrite app_nil_r.
      * rewrite IH. cbn [upserts]. by rewrite <- app_assoc.
    + destruct (entryId_None_quiet m Hid) as [-> Hup].
      rewrite IH. cbn [flat_map]. by rewrite Hup.
Qed.

(** What the loop allocates: one handle per filed entry. *)
Lemma loop_next (entries : list Json) (acc : LoopState) :
  (next acc ≤ next (loop entries acc).1)%nat.
Proof.
  revert acc. induction entries as [|m rest IH]; intros acc; [done|].
  cbn [loop]. rewrite iteration_spec.
  destruct (entryId m) as [id|].
  - destruct (negb (entryThrows m)); cbn [fst next].
    + etrans; [|apply IH]. cbn [next]. lia.
    + lia.
  - apply IH.
Qed.

(** The names filed by a loop that completes, [__proto__] apart, are own
    properties of [fresh] afterwards, next to those it had. *)
Lemma loop_fresh_dom (entries : list Json) (acc : LoopState) :
  (loop entries acc).2 = true →
  "__proto__" ∉ omap entryId entries →
  dom (own (fresh (loop entries acc).1))
  = dom (own (fresh acc)) ∪ list_to_set (omap entryId entries).
Proof.
  revert acc. induction entries as [|m rest IH]; intros acc Hdone Hproto.
  - cbn. set_solver.
  - cbn [loop omap list_omap] in *. rewrite iteration_spec in *.
    destruct (entryId m) as [id|] eqn:Hid.
    + destruct (negb (entryThrows m)); [|discriminate Hdone].
      cbn [fst] in *. rewrite IH; [|exact Hdone|set_solver].
      cbn [fresh]. unfold setProp. rewrite decide_False by set_solver.
      cbn [own]. rewrite dom_insert_L. set_solver.
    + rewrite IH; [reflexivity|exact Hdone|exact Hproto].
Qed.

(** Every handle of [fresh] after the loop was there before or was
    constructed by the loop for the name it is filed under. *)
Lemma loop_fresh_handles (entries : list Json) (acc : LoopState) (k : string) (h : Handle) :
  own (fresh (loop entries acc).1) !! k = Some h →
  own (fresh acc) !! k = Some h
  ∨ (h = openrouter (ref h) k ∧ (next acc ≤ ref h < next (loop entries acc).1)%nat).
Proof.
  revert acc. induction entries as [|m rest IH]; intros acc Hk; [by left|].
  cbn [loop] in *. rewrite iteration_spec in *.
  destruct (entryId m) as [id|] eqn:Hid; [|by apply IH].
  set (acc1 := mkLoop _ _ _) in *.
  assert (Hstep : ∀ h', own (fresh acc1) !! k = Some h' →
            own (fresh acc) !! k = Some h'
            ∨ (h' = openrouter (ref h') k ∧ (next acc ≤ ref h' < next acc1)%nat)).
  { intros h'. subst acc1. cbn [fresh next]. unfold setProp.
    destruct (decide (id = "__proto__")); cbn [own]; [by left|].
    destruct (decide (id = k)) as [->|Hne].
    - rewrite lookup_insert_eq. intros [= <-]. right. cbn. split; [done|lia].
    - rewrite lookup_insert_ne by done. by left. }
  destruct (negb (entryThrows m)); cbn [fst] in *.
  - destruct (IH acc1 Hk) as [Hold|[Heq Hrange]].
    + destruct (Hstep h Hold) as [?|[? ?]]; [by left|].
      right. split; [done|]. pose proof (loop_next rest acc1). lia.
    + right. split; [done|]. subst acc1. cbn [next] in *. lia.
  - apply Hstep, Hk.
Qed.

Lemma loop_fresh_proto (entries : list Json) (acc : LoopState) :
  "__proto__" ∉ omap entryId entries →
  proto (fresh (loop entries acc).1) = proto (fresh acc).
Proof.
  revert acc. induction entries as [|m rest IH]; intros acc Hproto; [done|].
  cbn [loop omap list_omap] in *. rewrite iteration_spec.
  destruct (entryId m) as [id|] eqn:Hid; [|by apply IH].
  assert (Hset : proto (setProp (fresh acc) id (openrouter (next acc) id))
                 = proto (fresh acc)).
  { unfold setProp. by rewrite decide_False by set_solver. }
  destruct (negb (entryThrows m)); cbn [fst].
  - rewrite IH by set_solver. exact Hset.
  - exact Hset.
Qed.

(** A run with a key whose fetch succeeds and whose body parses. *)
Lemma refresh_success (env : Env) (data : Json) (st : Module) :
  apiKeyMissing env = false →
  let r := loop (entryList data) (mkLoop (plain []) [] (nextRef st)) in
  let st' := refreshOpenRouterModels env (FetchResponse true (Some data)) st in
  openRouterDynamicModels st'
  = (if r.2 && (0 <? size (own (fresh r.1)))%nat
     then fresh r.1 else openRouterDynamicModels st)
  ∧ upsertCalls st' = (upsertCalls st ++ upserts r.1)%list
  ∧ nextRef st' = next r.1.
Proof.
  intros Hkey. unfold refreshOpenRouterModels. rewrite Hkey.
  unfold refreshResume, refreshBegin. cbn [nextRef upsertCalls openRouterDynamicModels].
  destruct (loop _ _) as [acc completed]. repeat split.
Qed.




(** C2, amended.  Take a run with a key whose fetch succeeds and whose
    body parses, no entry being named [__proto__].  If no iteration throws
    and at least one entry has an [id] that is a non-empty string, the
    dynamic table afterwards owns exactly those ids, each mapped to an
    openrouter handle for that id constructed during this run, and no
    other name: what the old table held under other names is gone.  If an
    iteration throws, or no entry has such an id, the table is left as it
    was. *)
Theorem refresh_replaces_table (env : Env) (data : Json) (st : Module) :
  apiKeyMissing env = false →
  "__proto__" ∉ omap entryId (entryList data) →
  let ids := omap entryId (entryList data) in
  let st' := refreshOpenRouterModels env (FetchResponse true (Some data)) st in
  (Forall (fun m => entryThrows m = false) (entryList data) →
   ids ≠ [] →
     dom (own (openRouterDynamicModels st')) = list_to_set ids
     ∧ proto (openRouterDynamicModels st') = None
     ∧ (∀ k h, own (openRouterDynamicModels st') !! k = Some h →
          h = openrouter (ref h) k ∧ (nextRef st ≤ ref h < nextRef st')%nat)
     ∧ (∀ k, k ∉ ids → own (openRouterDynamicModels st') !! k = None))
  ∧ (Exists (fun m => entryThrows m = true) (entryList data) ∨ ids = [] →
     openRouterDynamicModels st' = openRouterDynamicModels st).
Proof.
  intros Hkey Hproto ids st'.
  destruct (refresh_success env data st Hkey) as (Htable & _ & Hnext).
  fold st' in Htable, Hnext.
  set (init := mkLoop (plain []) [] (nextRef st)) in *.
  split.
  - intros Hquiet Hne.
    assert (Hdone : (loop (entryList data) init).2 = true).
    { rewrite loop_completed. apply forallb_forall. intros m Hm.
      rewrite Forall_forall in Hquiet. rewrite Hquiet; [done|].
      by apply list_elem_of_In. }
    pose proof (loop_fresh_dom (entryList data) init Hdone Hproto) as Hdom.
    cbn in Hdom. rewrite dom_empty_L, (left_id_L ∅ (∪)) in Hdom. fold ids in Hdom.
    rewrite Hdone in Htable. cbn [andb] in Htable.
    assert (Hsize : (0 <? size (own (fresh (loop (entryList data) init).1)))%nat = true).
    { apply Nat.ltb_lt. destruct ids as [|id rest] eqn:Hids; [done|].
      assert (Hin : id ∈ dom (own (fresh (loop (entryList data) init).1))).
      { rewrite Hdom. set_solver. }
      apply elem_of_dom in Hin.
      pose proof (map_size_ne_0_lookup_2 _ id Hin). lia. }
    rewrite Hsize in Htable. rewrite Htable. split; [exact Hdom|]. split; [|split].
    + by rewrite loop_fresh_proto.
    + intros k h Hk. rewrite Hnext.
      destruct (loop_fresh_handles _ _ _ _ Hk) as [Hold|Hnew]; [|exact Hnew].
      cbn in Hold. rewrite lookup_empty in Hold. discriminate.
    + intros k Hk. apply not_elem_of_dom. rewrite Hdom. set_solver.
  - intros [Hthrows|Hnil].
    + assert (Hdone : (loop (entryList data) init).2 = false).
      { rewrite loop_completed. apply not_true_is_false. intros Hall.
        rewrite forallb_forall in Hall. apply Exists_exists in Hthrows.
        destruct Hthrows as (m & Hm & Ht). apply list_elem_of_In in Hm.
        specialize (Hall m Hm). rewrite Ht in Hall. discriminate. }
      rewrite Hdone in Htable. exact Htable.
    + destruct ((loop (entryList data) init).2) eqn:Hdone; [|exact Htable].
      pose proof (loop_fresh_dom (entryList data) init Hdone Hproto) as Hdom.
      fold ids in Hdom. rewrite Hnil in Hdom. cbn in Hdom.
      rewrite dom_empty_L, (left_id_L ∅ (∪)) in Hdom.
      assert (Hsize : size (own (fresh (loop (entryList data) init).1)) = 0%nat).
      { apply map_size_empty_iff, dom_empty_iff_L, Hdom. }
      rewrite Hsize in Htable. exact Htable.
Qed.

(** A refresh leaves the dynamic table with the default prototype when
    it had it before and the catalog has no entry named [__proto__]. *)
Lemma refresh_default_prototype (env : Env) (net : FetchOutcome) (st : Module) :
  (∀ data, net = FetchResponse true (Some data) →
           "__proto__" ∉ omap entryId (entryList data)) →
  proto (openRouterDynamicModels st) = None →
  proto (openRouterDynamicModels (refreshResume net st)) = None
  ∧ proto (openRouterDynamicModels (refreshOpenRouterModels env net st)) = None.
Proof.
  intros Hnet Hst.
  assert (Hresume : ∀ s, proto (openRouterDynamicModels s) = None →
            proto (openRouterDynamicModels (refreshResume net s)) = None).
  { intros s Hs. destruct net as [|[] [data|]]; try exact Hs.
    unfold refreshResume.
    pose proof (loop_fresh_proto (entryList data) (mkLoop (plain []) [] (nextRef s))
                  (Hnet data eq_refl)) as Hfresh.
    destruct (loop _ _) as [acc completed]. cbn [openRouterDynamicModels fst] in *.
    destruct (completed && _); [exact Hfresh|exact Hs]. }
  split; [by apply Hresume|].
  unfold refreshOpenRouterModels. destruct (apiKeyMissing env); [exact Hst|].
  by apply Hresume.
Qed.

Lemma pricingOf_truthy_pricing (m : Json) :
  truthyJ (getProp (getProp (Some m) "pricing") "prompt") = true →
  truthyJ (getProp (Some m) "pricing") = true.
Proof. by destruct (getProp (Some m) "pricing") as [[]|]. Qed.

(** C4, amended.  In a run with a key whose fetch succeeds and whose
    body parses, the upserts issued are, in order, those of the entries
    the loop gets to (all of them when no iteration throws), where:
    an entry whose [pricing.prompt] does not convert to a number other
    than NaN, or whose [pricing.completion] is missing, has none; an entry
    filed under a non-empty string [id] whose [pricing.prompt] and
    [pricing.completion] are both truthy and both convert to numbers other
    than NaN has exactly one, for that [id], with currency USD, carrying
    the two numbers, and a [requestPrice] that is null when
    [pricing.request] is absent or falsy ([null], [0], the empty string,
    [false]) and its number when it is truthy and its conversion returns;
    when [pricing.request] is truthy and its conversion throws, the entry
    has no upsert and its iteration throws. *)
Theorem refresh_upserts (env : Env) (data : Json) (st : Module) :
  apiKeyMissing env = false →
  let st' := refreshOpenRouterModels env (FetchResponse true (Some data)) st in
  upsertCalls st'
  = (upsertCalls st ++ flat_map entryUpsert (processed (entryList data)))%list
  ∧ (Forall (fun m => entryThrows m = false) (entryList data) →
       processed (entryList data) = entryList data)
  ∧ (∀ m, let pricing := getProp (Some m) "pricing" in
       (∀ x, ToNumber (getProp pricing "prompt") = Normal x → isNaN x = true)
       ∨ getProp pricing "completion" = None →
       entryUpsert m = [])
  ∧ (∀ m id pp cp, let pricing := getProp (Some m) "pricing" in
       entryId m = Some id →
       truthyJ (getProp pricing "prompt") = true →
       truthyJ (getProp pricing "completion") = true →
       ToNumber (getProp pricing "prompt") = Normal pp → isNaN pp = false →
       ToNumber (getProp pricing "completion") = Normal cp → isNaN cp = false →
       (getProp pricing "request" = None
        ∨ truthyJ (getProp pricing "request") = false →
          entryUpsert m = [mkPricing id pp cp None "USD" None]
          ∧ entryThrows m = false)
       ∧ (∀ rp, truthyJ (getProp pricing "request") = true →
                ToNumber (getProp pricing "request") = Normal rp →
                entryUpsert m = [mkPricing id pp cp (Some rp) "USD" None]
                ∧ entryThrows m = false)
       ∧ (truthyJ (getProp pricing "request") = true →
          ToNumber (getProp pricing "request") = Throw →
          entryUpsert m = [] ∧ entryThrows m = true)).
Proof.
  intros Hkey st'. split; [|split; [|split]].
  - destruct (refresh_success env data st Hkey) as (_ & Hcalls & _).
    fold st' in Hcalls. rewrite Hcalls, loop_upserts. cbn [upserts]. reflexivity.
  - apply processed_all.
  - intros m pricing Hbad. unfold entryUpsert.
    destruct (entryId m) as [id|]; [|reflexivity].
    unfold pricingOf. fold pricing.
    destruct Hbad as [Hprompt|Hcompletion].
    + destruct (truthyJ pricing && truthyJ (getProp pricing "prompt")
                && truthyJ (getProp pricing "completion")); [|reflexivity].
      destruct (ToNumber (getProp pricing "prompt")) as [pp|]; [|reflexivity].
      pose proof (Hprompt pp eq_refl) as Hnan. unfold mbind, Completion_bind.
      destruct (ToNumber (getProp pricing "completion")) as [cp|]; [|reflexivity].
      rewrite Hnan.
      destruct (truthyJ (getProp pricing "request")); [|reflexivity].
      by destruct (ToNumber (getProp pricing "request")).
    + rewrite Hcompletion. cbn [truthyJ]. by rewrite andb_false_r.
  - intros m id pp cp pricing Hid Hp Hc Hpp Hppn Hcp Hcpn.
    subst pricing. unfold entryUpsert, entryThrows. rewrite Hid. unfold pricingOf.
    rewrite (pricingOf_truthy_pricing m Hp), Hp, Hc, Hpp, Hcp.
    unfold mbind, Completion_bind. cbn [andb]. split; [|split].
    + intros Hreq.
      assert (Hfalsy : truthyJ (getProp (getProp (Some m) "pricing") "request") = false).
      { destruct Hreq as [Hnone|Hfalsy]; [by rewrite Hnone|exact Hfalsy]. }
      rewrite Hfalsy. by rewrite Hppn, Hcpn.
    + intros rp Hreq Hrp. rewrite Hreq, Hrp. by rewrite Hppn, Hcpn.
    + intros Hreq Hrp. by rewrite Hreq, Hrp.
Qed.
End RefresherFacts.

(** ** Lookup with fallback *)

(** Every map of [staticModels] is an object literal, with the default
    prototype. *)
Lemma staticModels_default_prototype (p : string) (m : ModelMap) :
  staticModels !! p = Some m → proto m = None.
Proof.
  intros Hp.
  assert (Hall : map_Forall (fun _ m => proto m = None) staticModels).
  { apply map_Forall_to_list, Forall_forall. intros [k v] Hin.
    apply elem_of_map_to_list in Hin. unfold staticModels in Hin.
    apply elem_of_list_to_map_2 in Hin.
    repeat (apply elem_of_cons in Hin; destruct Hin as [Heq|Hin];
            [by inversion Heq|]).
    by apply elem_of_nil in Hin. }
  exact (Hall p m Hp).
Qed.

Section Lookup.
Context `{Host}.
Variable openaiCompatibleModels : gmap string ModelMap.

Lemma getModel_no_request (st : Module) :
  getModel openaiCompatibleModels st None = Normal (VHandle fallbackModel).
Proof. reflexivity. Qed.

(** A pair the combined table owns resolves to the table's handle. *)
Lemma getModel_present (st : Module) (p k : string) (m : ModelMap) (h : Handle) :
  getAllModels openaiCompatibleModels st !! p = Some m →
  own m !! k = Some h →
  getModel openaiCompatibleModels st (Some (mkChatModel p k)) = Normal (VHandle h).
Proof.
  intros Hp Hk. unfold getModel, lookupPlain. cbn [provider model].
  rewrite Hp. unfold optChain, getV. cbn [nullish]. rewrite Hk. reflexivity.
Qed.

(** A pair the combined table does not own resolves to the fallback when
    [Object.prototype] defines neither name that is looked up. *)
Lemma getModel_absent (st : Module) (p k : string) :
  match getAllModels openaiCompatibleModels st !! p with
  | None => objectPrototypeGet p = None
  | Some m => own m !! k = None ∧ proto m = None ∧ objectPrototypeGet k = None
  end →
  getModel openaiCompatibleModels st (Some (mkChatModel p k))
  = Normal (VHandle fallbackModel).
Proof.
  unfold getModel, lookupPlain, inherited. cbn [provider model].
  destruct (getAllModels openaiCompatibleModels st !! p) as [m|].
  - intros (Hk & Hproto & Hk'). unfold optChain, getV, inherited. cbn [nullish].
    rewrite Hk, Hproto, Hk'. reflexivity.
  - intros ->. reflexivity.
Qed.

(** A model name that the provider's map does not own but
    [Object.prototype] defines resolves to the inherited value. *)
Lemma getModel_inherited (st : Module) (p k : string) (m : ModelMap) (o : HostVal) :
  getAllModels openaiCompatibleModels st !! p = Some m →
  own m !! k = None →
  proto m = None →
  objectPrototypeGet k = Some o →
  hostTruthy o = true →
  getModel openaiCompatibleModels st (Some (mkChatModel p k)) = Normal (VHost o).
Proof.
  intros Hp Hk Hproto Ho Htruthy. unfold getModel, lookupPlain. cbn [provider model].
  rewrite Hp. unfold optChain, getV, inherited. cbn [nullish].
  rewrite Hk, Hproto, Ho. cbn. unfold orElse. cbn [truthy]. by rewrite Htruthy.
Qed.

(** The request [{ provider: "openai", model: "constructor" }].  The
    static [openai] map has no model of that name, so the pair is absent
    from the table; yet on every host whose [Object.prototype] has a truthy
    [constructor] (ECMAScript makes it the function [Object]), and
    whatever the compatible tables and the module state are, [getModel]
    returns that inherited value: not the fallback handle, and not a
    handle at all. *)
Lemma getModel_inherited_constructor (st : Module) (o : HostVal) :
  objectPrototypeGet "constructor" = Some o →
  hostTruthy o = true →
  (∃ m, getAllModels openaiCompatibleModels st !! "openai" = Some m
        ∧ own m !! "constructor" = None)
  ∧ getModel openaiCompatibleModels st (Some (mkChatModel "openai" "constructor"))
    = Normal (VHost o).
Proof.
  intros Ho Htruthy.
  assert (Hp : getAllModels openaiCompatibleModels st !! "openai"
               = staticModels !! "openai").
  { rewrite getAllModels_lookup. reflexivity. }
  split.
  - eexists. split; [exact Hp|reflexivity].
  - eapply getModel_inherited; [exact Hp|reflexivity|reflexivity|exact Ho|exact Htruthy].
Qed.

(** C1, amended.  [getModel] without a request returns the fallback
    handle, the static [openai] handle for [gpt-4.1].  With a request it
    reads the combined table, which holds the openai-compatible providers
    overlaid by the static providers and by the dynamic table under
    [openRouter]: a pair that table owns resolves to exactly the handle
    stored there; a provider the table does not hold, and that
    [Object.prototype] does not define, resolves to the fallback handle;
    and so does a model name the provider's map does not own, when
    [Object.prototype] does not define that name and the map has the
    default prototype.  Every static map and the seed of the dynamic
    table have the default prototype, and the dynamic table keeps it
    across every refresh whose catalog has no entry named [__proto__].
    In all these cases the call returns and does not throw. *)
Theorem getModel_spec (st : Module) :
  getModel openaiCompatibleModels st None = Normal (VHandle fallbackModel)
  ∧ staticEntry "openai" "gpt-4.1" = [fallbackModel]
  ∧ (∀ p, getAllModels openaiCompatibleModels st !! p
          = if decide (p = "openRouter") then Some (openRouterDynamicModels st)
            else match staticModels !! p with
                 | Some m => Some m
                 | None => openaiCompatibleModels !! p
                 end)
  ∧ (∀ p k m h,
       getAllModels openaiCompatibleModels st !! p = Some m →
       own m !! k = Some h →
       getModel openaiCompatibleModels st (Some (mkChatModel p k))
       = Normal (VHandle h))
  ∧ (∀ p k,
       getAllModels openaiCompatibleModels st !! p = None →
       objectPrototypeGet p = None →
       getModel openaiCompatibleModels st (Some (mkChatModel p k))
       = Normal (VHandle fallbackModel))
  ∧ (∀ p k m,
       getAllModels openaiCompatibleModels st !! p = Some m →
       own m !! k = None →
       proto m = None →
       objectPrototypeGet k = None →
       getModel openaiCompatibleModels st (Some (mkChatModel p k))
       = Normal (VHandle fallbackModel))
  ∧ (∀ p m, staticModels !! p = Some m → proto m = None)
  ∧ proto seedModels = None
  ∧ (∀ env net,
       (∀ data, net = FetchResponse true (Some data) →
                "__proto__" ∉ omap entryId (entryList data)) →
       proto (openRouterDynamicModels st) = None →
       proto (openRouterDynamicModels (refreshResume net st)) = None
       ∧ proto (openRouterDynamicModels (refreshOpenRouterModels env net st)) = None).
Proof.
  split; [reflexivity|]. split; [reflexivity|].
  split; [apply getAllModels_lookup|]. split; [apply getModel_present|].
  split; [|split; [|split; [|split]]].
  - intros p k Hp Hproto. apply getModel_absent. by rewrite Hp.
  - intros p k m Hp Hk Hproto Hk'. apply getModel_absent. by rewrite Hp.
  - apply staticModels_default_prototype.
  - reflexivity.
  - intros env net. apply refresh_default_prototype.
Qed.
End Lookup.

Lemma getModel_spec_witness :
  getModel ∅ (declared []) (Some (mkChatModel "google" "gemini-2.5-pro"))
  = Normal (VHandle (google 9 "gemini-2.5-pro"))
  ∧ getModel ∅ (declared []) (Some (mkChatModel "google" "gemini-9"))
    = Normal (VHandle fallbackModel)
  ∧ getModel ∅ (declared []) (Some (mkChatModel "acme" "gemini-9"))
    = Normal (VHandle fallbackModel).
Proof.
  destruct (@getModel_spec fragmentHost ∅ (declared []))
    as (_ & _ & _ & Hpresent & Hnoprovider & Hnomodel & _).
  split; [|split].
  - by apply (Hpresent "google" "gemini-2.5-pro"
                (plain [ ("gemini-2.5-flash-lite", google 7 "gemini-2.5-flash-lite");
                         ("gemini-2.5-flash", google 8 "gemini-2.5-flash");
                         ("gemini-2.5-pro", google 9 "gemini-2.5-pro") ])).
  - by apply (Hnomodel "google" "gemini-9"
                (plain [ ("gemini-2.5-flash-lite", google 7 "gemini-2.5-flash-lite");
                         ("gemini-2.5-flash", google 8 "gemini-2.5-flash");
                         ("gemini-2.5-pro", google 9 "gemini-2.5-pro") ])).
  - by apply Hnoprovider.
Defined.

(** C1, the claim as stated fails, in two ways.  A pair that only an
    openai-compatible provider defines is absent from the static and the
    dynamic tables, and [getModel] returns the compatible handle, not the
    fallback.  And the model name [constructor], which the static [openai]
    map does not own, resolves through the prototype chain to the built-in
    function [Object], which is not a handle. *)
Lemma getModel_beyond_static_and_dynamic :
  let h := mkHandle 100 "acme" "x" in
  let compat : gmap string ModelMap := {[ "acme" := plain [("x", h)] ]} in
  staticModels !! "acme" = None
  ∧ getModel compat (declared []) (Some (mkChatModel "acme" "x")) = Normal (VHandle h)
  ∧ h ≠ fallbackModel
  ∧ (∃ m, getAllModels ∅ (declared []) !! "openai" = Some m
          ∧ own m !! "constructor" = None)
  ∧ getModel ∅ (declared []) (Some (mkChatModel "openai" "constructor"))
    = Normal (VHost (EsFunction "Object")).
Proof.
  intros h compat. split; [reflexivity|]. split; [reflexivity|].
  split; [discriminate|]. split; [|reflexivity].
  eexists. split; reflexivity.
Qed.

(** Why the prototype matters.  The catalog
    [{data:[{id:"__proto__"},{id:"a"}]}] makes the handle constructed for
    [__proto__] the prototype of the fresh table, which owns [a] alone and
    is swapped in.  The name [modelId] is then neither owned by the table
    nor defined by [Object.prototype], and [getModel] returns the
    [modelId] of that handle, a string. *)
Lemma getModel_after_proto_entry :
  let env : Env := {[ "OPENROUTER_API_KEY" := "sk-or-1" ]} in
  let data := JObject [("data", JArray [JObject [("id", JString "__proto__")];
                                        JObject [("id", JString "a")]])] in
  let st' := refreshOpenRouterModels env (FetchResponse true (Some data)) (declared []) in
  dom (own (openRouterDynamicModels st')) = {[ "a" ]}
  ∧ proto (openRouterDynamicModels st') = Some (openrouter 32 "__proto__")
  ∧ objectPrototypeGet "modelId" = None
  ∧ getModel ∅ st' (Some (mkChatModel "openRouter" "modelId"))
    = Normal (VHost (EsString "__proto__")).
Proof. repeat split. Qed.

(** ** The refresher on concrete responses *)

(** The spec's scenario: the response [{data:[{id:"B"}]}] replaces the
    seed table by a table that owns [B] alone. *)
Lemma refresh_replaces_table_witness :
  let env : Env := {[ "OPENROUTER_API_KEY" := "sk-or-1" ]} in
  let data := JObject [("data", JArray [JObject [("id", JString "B")]])] in
  let st' := refreshOpenRouterModels env (FetchResponse true (Some data)) (declared []) in
  dom (own (openRouterDynamicModels st')) = list_to_set ["B"]
  ∧ own (openRouterDynamicModels st') !! "gpt-oss-20b:free" = None.
Proof.
  intros env data st'.
  assert (Hids : omap entryId (entryList data) = ["B"]) by reflexivity.
  destruct (refresh_replaces_table env data (declared [])) as [Hsome _].
  - reflexivity.
  - rewrite Hids. intros Hin%list_elem_of_In. destruct Hin as [Heq|[]]. discriminate Heq.
  - rewrite Hids in Hsome.
    destruct Hsome as (Hdom & _ & _ & Hgone); [repeat constructor|discriminate|].
    split; [exact Hdom|]. apply Hgone.
    intros Hin%list_elem_of_In. destruct Hin as [Heq|[]]. discriminate Heq.
Defined.

(** C2, the claim as stated fails.  The response
    [{data:[{id:5}]}] parses to an entry list that is not empty, and none
    of its entries has a string [id]; the table afterwards is not the
    empty one the claim asks for but the seed, old entries included. *)
Lemma refresh_entries_without_string_id :
  let env : Env := {[ "OPENROUTER_API_KEY" := "sk-or-1" ]} in
  let entry := JObject [("id", JNumber (Dyadic false 5 0))] in
  let data := JObject [("data", JArray [entry])] in
  let st' := refreshOpenRouterModels env (FetchResponse true (Some data)) (declared []) in
  entryList data = [entry]
  ∧ openRouterDynamicModels st' = seedModels
  ∧ own (openRouterDynamicModels st') !! "qwen3-8b:free"
    = Some (openrouter 26 "qwen/qwen3-8b:free").
Proof. repeat split. Qed.

(** An [id] that is the empty string is a string, and is skipped too. *)
Lemma refresh_entry_with_empty_id :
  let env : Env := {[ "OPENROUTER_API_KEY" := "sk-or-1" ]} in
  let data := JObject [("data", JArray [JObject [("id", JString "")]])] in
  openRouterDynamicModels
    (refreshOpenRouterModels env (FetchResponse true (Some data)) (declared []))
  = seedModels.
Proof. reflexivity. Qed.


(** The spec's example shape, with prices the host fragment converts:
    one upsert, in USD, with a null request price. *)
Lemma refresh_upserts_witness :
  let env : Env := {[ "OPENROUTER_API_KEY" := "sk-or-1" ]} in
  let entry :=
    JObject [("id", JString "m");
             ("pricing", JObject [("prompt", JString "1");
                                  ("completion", JString "2")])] in
  let data := JObject [("data", JArray [entry])] in
  upsertCalls (refreshOpenRouterModels env (FetchResponse true (Some data)) (declared []))
  = [mkPricing "m" (Dyadic false 1 0) (Dyadic false 2 0) None "USD" None].
Proof.
  intros env entry data.
  destruct (refresh_upserts env data (declared [])) as (Hcalls & Hall & _ & Hone).
  - reflexivity.
  - rewrite Hcalls, Hall by (repeat constructor).
    pose proof (Hone entry "m" (Dyadic false 1 0) (Dyadic false 2 0)
                  eq_refl eq_refl eq_refl eq_refl eq_refl eq_refl eq_refl)
      as [Hnull _].
    change (entryList data) with [entry]. cbn [flat_map].
    rewrite (proj1 (Hnull (or_introl eq_refl))). reflexivity.
Defined.

(** C4, the claim as stated fails.  The first entry,
    [{id:"m", pricing:{prompt:0, completion:0}}], carries both fields, and
    [Number] of each is the number 0, which is not NaN; it gets no upsert,
    because the guard [pricing.prompt && pricing.completion] tests the
    fields for truthiness before they are converted.  The second,
    [{id:7, pricing:{prompt:"1", completion:"2"}}], carries two prices
    that convert to 1 and 2; it gets no upsert either, because an entry
    whose [id] is not a string is skipped as a whole. *)
Lemma refresh_numeric_prices_not_upserted :
  let env : Env := {[ "OPENROUTER_API_KEY" := "sk-or-1" ]} in
  let zeros := JObject [("prompt", JNumber numZero); ("completion", JNumber numZero)] in
  let prices := JObject [("prompt", JString "1"); ("completion", JString "2")] in
  let first := JObject [("id", JString "m"); ("pricing", zeros)] in
  let second := JObject [("id", JNumber (Dyadic false 7 0)); ("pricing", prices)] in
  let data := JObject [("data", JArray [first; second])] in
  let st' := refreshOpenRouterModels env (FetchResponse true (Some data)) (declared []) in
  ToNumber (getProp (Some zeros) "prompt") = Normal numZero
  ∧ ToNumber (getProp (Some zeros) "completion") = Normal numZero
  ∧ isNaN numZero = false
  ∧ ToNumber (getProp (Some prices) "prompt") = Normal (Dyadic false 1 0)
  ∧ ToNumber (getProp (Some prices) "completion") = Normal (Dyadic false 2 0)
  ∧ own (openRouterDynamicModels st') !! "m" = Some (openrouter 32 "m")
  ∧ upsertCalls st' = [].
Proof. repeat split. Qed.

(** A request price that is present and falsy, and one whose conversion
    throws.  The entry [{id:"m", pricing:{prompt:"1", completion:"2",
    request:null}}] gets its upsert, with a null request price; with
    [request:{toString:1}] the conversion throws a TypeError, the entry
    gets no upsert, and the [catch] ends the run before the swap. *)
Lemma refresh_request_price_cases :
  let env : Env := {[ "OPENROUTER_API_KEY" := "sk-or-1" ]} in
  let entry request :=
    JObject [("id", JString "m");
             ("pricing", JObject [("prompt", JString "1");
                                  ("completion", JString "2");
                                  ("request", request)])] in
  let run request :=
    refreshOpenRouterModels env
      (FetchResponse true (Some (JObject [("data", JArray [entry request])])))
      (declared []) in
  upsertCalls (run JNull)
  = [mkPricing "m" (Dyadic false 1 0) (Dyadic false 2 0) None "USD" None]
  ∧ upsertCalls (run (JObject [("toString", JNumber numOne)])) = []
  ∧ entryThrows (entry (JObject [("toString", JNumber numOne)])) = true
  ∧ openRouterDynamicModels (run (JObject [("toString", JNumber numOne)])) = seedModels.
Proof. repeat split. Qed.

(** Two more responses that leave the table as it was although an entry
    has a non-empty string [id]: the conversion of a later entry's price
    throws (an object with an own [toString] has no conversion method),
    which the [catch] swallows before the swap; and the only entry is named
    [__proto__], which [fresh] never owns. *)
Lemma refresh_throwing_entry_keeps_table :
  let env : Env := {[ "OPENROUTER_API_KEY" := "sk-or-1" ]} in
  let odd := JObject [("prompt", JObject [("toString", JNumber numOne)]);
                      ("completion", JString "1")] in
  let data := JObject [("data", JArray [JObject [("id", JString "a")];
                                        JObject [("id", JString "b"); ("pricing", odd)]])] in
  openRouterDynamicModels
    (refreshOpenRouterModels env (FetchResponse true (Some data)) (declared []))
  = seedModels.
Proof. reflexivity. Qed.

Lemma refresh_proto_entry_keeps_table :
  let env : Env := {[ "OPENROUTER_API_KEY" := "sk-or-1" ]} in
  let data := JObject [("data", JArray [JObject [("id", JString "__proto__")]])] in
  openRouterDynamicModels
    (refreshOpenRouterModels env (FetchResponse true (Some data)) (declared []))
  = seedModels.
Proof. reflexivity. Qed.

(** The host fragment prints and reads whole numbers as ECMAScript does. *)
Lemma fragmentHost_whole_numbers :
  NumberToString (Dyadic false 120 0) = "120"
  ∧ NumberToString (Dyadic true 0 0) = "0"
  ∧ NumberToString (Dyadic true 3 2) = "-12"
  ∧ StringToNumber "120" = Dyadic false 120 0
  ∧ StringToNumber "" = numZero
  ∧ StringToNumber "[object Object]" = NaN.
Proof. repeat split. Qed.

(** ** The pie chart's centre text *)

Lemma split_cons (sep : ascii) (value : list ascii) :
  ∃ part parts, split sep value = part :: parts.
Proof.
  induction value as [|c rest (part & parts & IH)]; cbn [split]; [by eexists _, _|].
  destruct (Ascii.eqb c sep); [by eexists _, _|].
  rewrite IH. by eexists _, _.
Qed.

(** Joining the parts with the separator gives the string back, and no
    part contains the separator. *)
Lemma split_join (sep : ascii) (value : list ascii) (part : list ascii)
    (parts : list (list ascii)) :
  split sep value = part :: parts →
  value = (part ++ flat_map (cons sep) parts)%list
  ∧ (sep ∉ part) ∧ Forall (fun q => sep ∉ q) parts.
Proof.
  revert part parts. induction value as [|c rest IH]; intros part parts; cbn [split].
  - intros [= <- <-]. split; [reflexivity|]. split; [apply not_elem_of_nil|constructor].
  - destruct (Ascii.eqb_spec c sep) as [->|Hne].
    + intros [= <- <-]. destruct (split_cons sep rest) as (p & ps & Hp).
      destruct (IH p ps Hp) as (Hrest & Hnp & Hnps). rewrite Hp. cbn.
      split; [by rewrite Hrest at 1|]. split; [apply not_elem_of_nil|by constructor].
    + destruct (split_cons sep rest) as (p & ps & Hp). rewrite Hp.
      intros [= <- <-]. destruct (IH p ps Hp) as (Hrest & Hnp & Hnps).
      split; [cbn; by rewrite Hrest at 1|]. split; [|exact Hnps].
      rewrite not_elem_of_cons. split; [congruence|exact Hnp].
Qed.

Lemma split_without_separator (sep : ascii) (value : list ascii) :
  sep ∉ value → split sep value = [value].
Proof.
  induction value as [|c rest IH]; [reflexivity|].
  rewrite not_elem_of_cons. intros [Hne Hrest]. cbn [split].
  destruct (Ascii.eqb_spec c sep) as [->|_]; [done|]. by rewrite IH.
Qed.

Lemma split_app (sep : ascii) (first rest : list ascii) :
  sep ∉ first → split sep (first ++ sep :: rest) = first :: split sep rest.
Proof.
  induction first as [|c first IH]; cbn [app split].
  - intros _. destruct (Ascii.eqb_spec sep sep); [reflexivity|done].
  - rewrite not_elem_of_cons. intros [Hne Hfirst].
    destruct (Ascii.eqb_spec c sep) as [->|_]; [done|]. by rewrite IH.
Qed.

Lemma split_with_separator (sep : ascii) (value : list ascii) :
  sep ∈ value → ∃ first second parts, split sep value = first :: second :: parts.
Proof.
  destruct (split_cons sep value) as (part & parts & Hsplit).
  destruct (split_join sep value part parts Hsplit) as (Hvalue & Hpart & _).
  intros Hin. destruct parts as [|second parts]; [|by eexists _, _, _].
  cbn in Hvalue. rewrite app_nil_r in Hvalue. by subst.
Qed.

Lemma stripTrailingZeros_prefix (s : list ascii) : stripTrailingZeros s `prefix_of` s.
Proof.
  induction s as [|c rest IH]; cbn [stripTrailingZeros]; [done|].
  destruct (stripTrailingZeros rest) as [|k kept].
  - destruct (Ascii.eqb c "0"); [apply prefix_nil|]. apply prefix_cons, prefix_nil.
  - by apply prefix_cons.
Qed.

Lemma stripTrailingZeros_last (s : list ascii) :
  last (stripTrailingZeros s) ≠ Some "0"%char.
Proof.
  induction s as [|c rest IH]; cbn [stripTrailingZeros]; [done|].
  destruct (stripTrailingZeros rest) as [|k kept].
  - destruct (Ascii.eqb_spec c "0"); [done|]. cbn. congruence.
  - by rewrite last_cons_cons.
Qed.

Lemma stripTrailingZeros_fixed (s : list ascii) :
  last s ≠ Some "0"%char → stripTrailingZeros s = s.
Proof.
  induction s as [|c rest IH]; [reflexivity|]. cbn [stripTrailingZeros].
  destruct rest as [|d rest].
  - cbn. intros Hc. destruct (Ascii.eqb_spec c "0"); [congruence|reflexivity].
  - rewrite last_cons_cons. intros Hlast. by rewrite IH.
Qed.

Lemma sliceFromStart_prefix (s : list ascii) (e : Z) : sliceFromStart s e `prefix_of` s.
Proof. unfold sliceFromStart. apply prefix_take. Qed.

Lemma sliceFromStart_length (s : list ascii) (e : Z) :
  (0 ≤ e)%Z → (length (sliceFromStart s e) ≤ Z.to_nat e)%nat.
Proof.
  intros He. unfold sliceFromStart. rewrite length_take.
  destruct (Z.ltb_spec e 0); lia.
Qed.

Lemma sliceFromStart_short (s : list ascii) (e : Z) :
  (Z.of_nat (length s) ≤ e)%Z → sliceFromStart s e = s.
Proof.
  intros He. unfold sliceFromStart.
  destruct (Z.ltb_spec e 0); [lia|]. apply take_ge. lia.
Qed.

(** The two ways [limitDecimalsString] answers. *)
Lemma limitDecimalsString_cases (value : list ascii) (maxDecimals : Z) :
  (limitDecimalsString value maxDecimals = value
   ∧ (endsWithLetter value = true ∨ ("."%char ∉ value)))
  ∨ (endsWithLetter value = false
     ∧ ∃ intPart decPart rest,
         value = (intPart ++ "."%char :: decPart ++ rest)%list
         ∧ ("."%char ∉ intPart) ∧ ("."%char ∉ decPart)
         ∧ let trimmed := stripTrailingZeros (sliceFromStart decPart maxDecimals) in
           limitDecimalsString value maxDecimals
           = if (0 <? length trimmed)%nat
             then (intPart ++ "."%char :: trimmed)%list else intPart).
Proof.
  unfold limitDecimalsString.
  destruct (endsWithLetter value) eqn:Hletter; [left; auto|].
  destruct (bool_decide ("."%char ∈ value)) eqn:Hdot; cbn [negb].
  - apply bool_decide_eq_true in Hdot. right. split; [reflexivity|].
    destruct (split_with_separator _ _ Hdot) as (intPart & decPart & parts & Hsplit).
    destruct (split_join _ _ _ _ Hsplit) as (Hvalue & Hint & Hparts).
    apply Forall_cons in Hparts as [Hdec _].
    exists intPart, decPart, (flat_map (cons "."%char) parts).
    rewrite Hsplit. cbn [nth]. cbn in Hvalue. auto.
  - apply bool_decide_eq_false in Hdot. left. auto.
Qed.

(** X1. [limitDecimalsString] only ever cuts: its result is a prefix of
    the text it is given, so never longer; and a text that ends in a
    letter (a unit suffix) or has no dot comes back as it is. *)
Theorem limitDecimalsString_prefix (value : list ascii) (maxDecimals : Z) :
  limitDecimalsString value maxDecimals `prefix_of` value
  ∧ (length (limitDecimalsString value maxDecimals) ≤ length value)%nat
  ∧ (endsWithLetter value = true ∨ ("."%char ∉ value) →
     limitDecimalsString value maxDecimals = value).
Proof.
  assert (Hprefix : limitDecimalsString value maxDecimals `prefix_of` value).
  { destruct (limitDecimalsString_cases value maxDecimals)
      as [[-> _]|(_ & intPart & decPart & rest & Hvalue & _ & _ & Hresult)]; [done|].
    cbn zeta in Hresult. rewrite Hresult, Hvalue.
    destruct (0 <? length _)%nat.
    - apply prefix_app, prefix_cons.
      etrans; [apply stripTrailingZeros_prefix|].
      etrans; [apply sliceFromStart_prefix|]. by apply prefix_app_r.
    - by apply prefix_app_r. }
  split; [exact Hprefix|]. split; [by apply prefix_length|].
  unfold limitDecimalsString. intros [->|Hdot]; [reflexivity|].
  destruct (endsWithLetter value); [reflexivity|].
  by rewrite bool_decide_eq_false_2.
Qed.

(** X2. For a text that does not end in a letter and a limit that is
    not negative, the result has no dot, or it has exactly one, followed
    by at least one and at most [maxDecimals] characters of which the
    last is not a zero. *)
Theorem limitDecimalsString_decimals (value : list ascii) (maxDecimals : Z) :
  endsWithLetter value = false →
  (0 ≤ maxDecimals)%Z →
  let result := limitDecimalsString value maxDecimals in
  ("."%char ∉ result)
  ∨ ∃ intPart decimals,
      result = (intPart ++ "."%char :: decimals)%list
      ∧ ("."%char ∉ intPart) ∧ ("."%char ∉ decimals)
      ∧ decimals ≠ []
      ∧ (length decimals ≤ Z.to_nat maxDecimals)%nat
      ∧ last decimals ≠ Some "0"%char.
Proof.
  intros Hletter Hmax result. subst result.
  destruct (limitDecimalsString_cases value maxDecimals)
    as [[-> [Hl|Hdot]]|(_ & intPart & decPart & rest & _ & Hint & Hdec & Hresult)].
  - congruence.
  - by left.
  - cbn zeta in Hresult. rewrite Hresult.
    set (trimmed := stripTrailingZeros (sliceFromStart decPart maxDecimals)).
    assert (Hpre : trimmed `prefix_of` decPart).
    { etrans; [apply stripTrailingZeros_prefix|apply sliceFromStart_prefix]. }
    destruct (Nat.ltb_spec 0 (length trimmed)) as [Hlen|Hlen]; [|by left].
    right. exists intPart, trimmed. split; [reflexivity|]. split; [exact Hint|].
    split.
    { intros Hin. apply Hdec. destruct Hpre as [k Hk]. rewrite Hk.
      apply elem_of_app. by left. }
    split; [intros Hnil; rewrite Hnil in Hlen; cbn in Hlen; lia|].
    split; [|apply stripTrailingZeros_last].
    etrans; [apply prefix_length, stripTrailingZeros_prefix|].
    by apply sliceFromStart_length.
Qed.

(** X3. With a limit that is not negative, limiting twice is limiting
    once. *)
Theorem limitDecimalsString_idempotent (value : list ascii) (maxDecimals : Z) :
  (0 ≤ maxDecimals)%Z →
  limitDecimalsString (limitDecimalsString value maxDecimals) maxDecimals
  = limitDecimalsString value maxDecimals.
Proof.
  intros Hmax.
  destruct (limitDecimalsString_cases value maxDecimals)
    as [[Hsame _]|(_ & intPart & decPart & rest & _ & Hint & Hdec & Hresult)];
    [by rewrite Hsame, Hsame|].
  cbn zeta in Hresult. rewrite Hresult.
  set (trimmed := stripTrailingZeros (sliceFromStart decPart maxDecimals)).
  assert (Hpre : trimmed `prefix_of` decPart).
  { etrans; [apply stripTrailingZeros_prefix|apply sliceFromStart_prefix]. }
  assert (Hshort : (length trimmed ≤ Z.to_nat maxDecimals)%nat).
  { etrans; [apply prefix_length, stripTrailingZeros_prefix|].
    by apply sliceFromStart_length. }
  destruct (Nat.ltb_spec 0 (length trimmed)) as [Hlen|Hlen].
  - unfold limitDecimalsString at 1.
    destruct (endsWithLetter _); [reflexivity|].
    rewrite bool_decide_eq_true_2 by (apply elem_of_app; right; left).
    cbn [negb]. rewrite split_app by exact Hint.
    rewrite split_without_separator.
    2:{ intros Hin. apply Hdec. destruct Hpre as [k Hk]. rewrite Hk.
        apply elem_of_app. by left. }
    cbn [nth]. rewrite sliceFromStart_short by lia.
    rewrite stripTrailingZeros_fixed by apply stripTrailingZeros_last.
    destruct (Nat.ltb_spec 0 (length trimmed)); [reflexivity|lia].
  - unfold limitDecimalsString at 1.
    destruct (endsWithLetter intPart); [reflexivity|].
    by rewrite bool_decide_eq_false_2.
Qed.

Lemma limitDecimalsString_decimals_witness :
  let value := String.list_ascii_of_string "12.3400" in
  ∃ intPart decimals,
    limitDecimalsString value 2 = (intPart ++ "."%char :: decimals)%list
    ∧ (length decimals ≤ 2)%nat.
Proof.
  intros value.
  destruct (limitDecimalsString_decimals value 2 eq_refl ltac:(lia))
    as [Hnone|(intPart & decimals & Hresult & _ & _ & _ & Hlen & _)].
  - exfalso. apply Hnone. vm_compute. do 2 right. left.
  - exists intPart, decimals. split; [exact Hresult|exact Hlen].
Defined.

Lemma limitDecimalsString_idempotent_witness :
  let value := String.list_ascii_of_string "0.125000" in
  limitDecimalsString (limitDecimalsString value 6) 6
  = String.list_ascii_of_string "0.125".
Proof.
  intros value. rewrite (limitDecimalsString_idempotent value 6) by lia.
  reflexivity.
Defined.

(** A negative limit counts from the end, and then limiting twice cuts
    twice. *)
Lemma limitDecimalsString_negative_limit :
  let value := String.list_ascii_of_string "12.3456" in
  limitDecimalsString value (-1) = String.list_ascii_of_string "12.345"
  ∧ limitDecimalsString (limitDecimalsString value (-1)) (-1)
    = String.list_ascii_of_string "12.34".
Proof. split; reflexivity. Qed.

(** ** Endpoints *)

Lemma stripTrailingSlash_app_slash (b : string) : stripTrailingSlash (b ++ "/") = b.
Proof.
  induction b as [|c rest IH]; [reflexivity|].
  destruct rest as [|d rest]; [reflexivity|].
  change (stripTrailingSlash (String c (String d rest) ++ "/"))
    with (String c (stripTrailingSlash (String d rest ++ "/"))).
  by rewrite IH.
Qed.

Lemma stripTrailingSlash_fixed (b : string) :
  endsWithSlash b = false → stripTrailingSlash b = b.
Proof.
  induction b as [|c rest IH]; [reflexivity|].
  cbn [stripTrailingSlash endsWithSlash]. destruct rest as [|d rest].
  - by intros ->.
  - intros Hend. by rewrite IH.
Qed.

Lemma append_cons (c : ascii) (rest s : string) :
  String c rest ++ s = String c (rest ++ s).
Proof. reflexivity. Qed.

Lemma append_slashes (b : string) : b ++ "//" = (b ++ "/") ++ "/".
Proof.
  induction b as [|c rest IH]; [reflexivity|]. by rewrite !append_cons, IH.
Qed.

(** X4. The models endpoint does not depend on whether the configured
    base URL ends in a slash: for a base that does not end in one, the
    base and the base followed by a slash give the same endpoint, which is
    the base followed by [/models]; and a base that is unset, empty or
    just a slash gives the public endpoint.  One slash is removed, not
    more. *)
Theorem OPENROUTER_MODELS_ENDPOINT_normalised (env : Env) (base : string) :
  endsWithSlash base = false →
  OPENROUTER_MODELS_ENDPOINT (<["OPENROUTER_BASE_URL" := base ++ "/"]> env)
  = OPENROUTER_MODELS_ENDPOINT (<["OPENROUTER_BASE_URL" := base]> env)
  ∧ OPENROUTER_MODELS_ENDPOINT (<["OPENROUTER_BASE_URL" := base]> env)
    = (if String.eqb base "" then "https://openrouter.ai/api/v1" else base) ++ "/models"
  ∧ OPENROUTER_MODELS_ENDPOINT (delete "OPENROUTER_BASE_URL" env)
    = "https://openrouter.ai/api/v1/models"
  ∧ OPENROUTER_MODELS_ENDPOINT (<["OPENROUTER_BASE_URL" := base ++ "//"]> env)
    = base ++ "//models".
Proof.
  intros Hend. unfold OPENROUTER_MODELS_ENDPOINT.
  rewrite !lookup_insert_eq, lookup_delete_eq. cbn [fmap option_fmap option_map].
  rewrite append_slashes, !stripTrailingSlash_app_slash,
    (stripTrailingSlash_fixed base Hend).
  repeat split. unfold orDefault.
  assert (Hne : String.eqb (base ++ "/") "" = false) by (by destruct base).
  rewrite Hne. clear. induction base as [|c rest IH]; [reflexivity|].
  by rewrite !append_cons, IH.
Qed.

Lemma OPENROUTER_MODELS_ENDPOINT_normalised_witness :
  OPENROUTER_MODELS_ENDPOINT {[ "OPENROUTER_BASE_URL" := "https://gw.example/v1/" ]}
  = "https://gw.example/v1/models".
Proof.
  destruct (OPENROUTER_MODELS_ENDPOINT_normalised ∅ "https://gw.example/v1" eq_refl)
    as (Hsame & Hbase & _).
  rewrite insert_empty in Hsame, Hbase.
  etrans; [exact Hsame|]. etrans; [exact Hbase|]. reflexivity.
Defined.

(** ** What the listing shows *)

Section Listing.
Context `{Host}.
Variable openaiCompatibleModels : gmap string ModelMap.

Lemma modelsInfo_providers_eq (env : Env) (st : Module) :
  map infoProvider (modelsInfo openaiCompatibleModels env st)
  = (map_to_list (getAllModels openaiCompatibleModels st)).*1.
Proof.
  unfold modelsInfo.
  induction (map_to_list (getAllModels openaiCompatibleModels st)) as [|e l IH];
    [reflexivity|].
  cbn. by rewrite IH.
Qed.

(** X5. Every model that [modelsInfo] lists can be resolved: for each
    provider entry and each model name under it, [getModel] with that
    provider and name returns the handle the combined table stores for the
    pair (never the fallback by a miss, and it does not throw), and the
    [isToolCallUnsupported] flag shown is the answer of
    [isToolCallUnsupportedModel] for that very handle. *)
Theorem modelsInfo_resolvable (env : Env) (st : Module) :
  Forall
    (fun info =>
       ∃ m, getAllModels openaiCompatibleModels st !! infoProvider info = Some m
            ∧ Forall
                (fun mi =>
                   ∃ h, own m !! name mi = Some h
                        ∧ getModel openaiCompatibleModels st
                            (Some (mkChatModel (infoProvider info) (name mi)))
                          = Normal (VHandle h)
                        ∧ isToolCallUnsupported mi = isToolCallUnsupportedModel st h)
                (models info))
    (modelsInfo openaiCompatibleModels env st).
Proof.
  apply Forall_forall. intros info Hinfo. unfold modelsInfo in Hinfo.
  apply list_elem_of_In, in_map_iff in Hinfo. destruct Hinfo as [[p m] [<- Hpm]].
  apply list_elem_of_In, elem_of_map_to_list in Hpm. cbn [infoProvider models fst snd].
  exists m. split; [exact Hpm|]. apply Forall_forall. intros mi Hmi.
  apply list_elem_of_In, in_map_iff in Hmi. destruct Hmi as [[k h] [<- Hkh]].
  apply list_elem_of_In, elem_of_map_to_list in Hkh.
  cbn [name isToolCallUnsupported fst snd]. exists h. split; [exact Hkh|].
  split; [|reflexivity]. by eapply getModel_present.
Qed.

(** X6. [modelsInfo] lists every provider of the combined table once:
    the names it shows are those of the static providers and of the
    openai-compatible providers, none twice; the seven static providers
    are always among them, [openRouter] also when the dynamic table had
    no model; and under each provider every model name of its map appears
    once. *)
Theorem modelsInfo_providers (env : Env) (st : Module) :
  NoDup (map infoProvider (modelsInfo openaiCompatibleModels env st))
  ∧ (∀ p, p ∈ map infoProvider (modelsInfo openaiCompatibleModels env st)
          ↔ p ∈ dom staticModels ∨ p ∈ dom openaiCompatibleModels)
  ∧ Forall (fun p => p ∈ map infoProvider (modelsInfo openaiCompatibleModels env st))
           [ "openai"; "google"; "anthropic"; "xai"; "ollama"; "groq"; "openRouter" ]
  ∧ Forall
      (fun info =>
         ∃ m, getAllModels openaiCompatibleModels st !! infoProvider info = Some m
              ∧ NoDup (map name (models info))
              ∧ length (models info) = size (own m)
              ∧ ∀ k, k ∈ map name (models info) ↔ k ∈ dom (own m))
      (modelsInfo openaiCompatibleModels env st).
Proof.
  assert (Hin : ∀ p, p ∈ map infoProvider (modelsInfo openaiCompatibleModels env st)
                     ↔ p ∈ dom staticModels ∨ p ∈ dom openaiCompatibleModels).
  { intros p. rewrite modelsInfo_providers_eq, list_elem_of_fmap. split.
    - intros ([p' m] & -> & Hpm). apply elem_of_map_to_list in Hpm. cbn [fst].
      rewrite getAllModels_lookup in Hpm. rewrite !elem_of_dom.
      destruct (decide (p' = "openRouter")) as [->|_]; [by left; eexists|].
      destruct (staticModels !! p'); [left|right]; by eexists.
    - rewrite !elem_of_dom. intros Hp.
      assert (Hsome : is_Some (getAllModels openaiCompatibleModels st !! p)).
      { rewrite getAllModels_lookup. destruct (decide (p = "openRouter")); [by eexists|].
        destruct (staticModels !! p); [by eexists|]. destruct Hp as [[? ?]|?]; done. }
      destruct Hsome as [m Hm]. exists (p, m). split; [reflexivity|].
      by apply elem_of_map_to_list. }
  split; [rewrite modelsInfo_providers_eq; apply NoDup_fst_map_to_list|].
  split; [exact Hin|]. split.
  - apply Forall_forall. intros p Hp. apply Hin. left. apply elem_of_dom.
    repeat (apply elem_of_cons in Hp as [->|Hp]; [by eexists|]).
    by apply elem_of_nil in Hp.
  - apply Forall_forall. intros info Hinfo. unfold modelsInfo in Hinfo.
    apply list_elem_of_In, in_map_iff in Hinfo. destruct Hinfo as [[p m] [<- Hpm]].
    apply list_elem_of_In, elem_of_map_to_list in Hpm. cbn [infoProvider models fst snd].
    exists m. split; [exact Hpm|].
    assert (Hnames : map name (map (fun e : string * Handle =>
                        mkModelInfo e.1 (isToolCallUnsupportedModel st e.2))
                        (map_to_list (own m)))
                     = (map_to_list (own m)).*1).
    { induction (map_to_list (own m)) as [|e l IH]; [reflexivity|]. cbn. by rewrite IH. }
    rewrite Hnames. split; [apply NoDup_fst_map_to_list|]. split.
    + by rewrite length_map, length_map_to_list.
    + intros k. rewrite list_elem_of_fmap, elem_of_dom. split.
      * intros ([k' h] & -> & Hkh). apply elem_of_map_to_list in Hkh. by eexists.
      * intros [h Hh]. exists (k, h). split; [reflexivity|].
        by apply elem_of_map_to_list.
Qed.

(** X7. Whenever [getModel] returns, what it returns is truthy, so never
    [undefined] or [null]; and it does return, without throwing, whenever
    the provider names a map of the combined table that has the default
    prototype, or names nothing at all, not even a property of
    [Object.prototype]. *)
Theorem getModel_truthy (st : Module) (request : option ChatModel) :
  (∀ v, getModel openaiCompatibleModels st request = Normal v → truthy v = true)
  ∧ (∀ p k,
       request = Some (mkChatModel p k) →
       match getAllModels openaiCompatibleModels st !! p with
       | Some m => proto m = None
       | None => objectPrototypeGet p = None
       end →
       ∃ v, getModel openaiCompatibleModels st request = Normal v).
Proof.
  split.
  - intros v. destruct request as [[p k]|]; cbn [getModel].
    + destruct (optChain _ _) as [w|]; [|discriminate]. cbn.
      intros [= <-]. unfold orElse. by destruct (truthy w) eqn:Hw.
    + by intros [= <-].
  - intros p k -> Hp. unfold getModel, lookupPlain, inherited. cbn [provider model].
    destruct (getAllModels openaiCompatibleModels st !! p) as [m|].
    + unfold optChain, getV. cbn [nullish]. rewrite Hp.
      destruct (own m !! k); by eexists.
    + rewrite Hp. by eexists.
Qed.
End Listing.

Lemma getModel_truthy_witness :
  ∃ v, getModel ∅ (declared []) (Some (mkChatModel "xai" "valueOf")) = Normal v
       ∧ truthy v = true.
Proof.
  destruct (@getModel_truthy fragmentHost ∅ (declared [])
              (Some (mkChatModel "xai" "valueOf"))) as [Htruthy Hreturns].
  destruct (Hreturns "xai" "valueOf" eq_refl eq_refl) as [v Hv].
  exists v. split; [exact Hv|]. by apply Htruthy.
Defined.

(** ** What every reachable state satisfies *)

Section Invariants.
Context `{Host}.

Lemma loop_fresh_keys (entries : list Json) (acc : LoopState) (k : string) :
  is_Some (own (fresh (loop entries acc).1) !! k) →
  is_Some (own (fresh acc) !! k) ∨ (k ≠ "" ∧ k ∈ omap entryId entries).
Proof.
  revert acc. induction entries as [|m rest IH]; intros acc Hk; [by left|].
  cbn [loop omap list_omap] in *. rewrite iteration_spec in *.
  destruct (entryId m) as [id|] eqn:Hid; [|by apply IH].
  assert (Hid' : id ≠ "").
  { unfold entryId in Hid. destruct (getProp (Some m) "id") as [[| | |s| |]|];
      try discriminate.
    destruct (String.eqb_spec s ""); [discriminate|]. by injection Hid as <-. }
  assert (Hstep : is_Some (own (setProp (fresh acc) id (openrouter (next acc) id)) !! k) →
                  is_Some (own (fresh acc) !! k) ∨ (k ≠ "" ∧ k ∈ id :: omap entryId rest)).
  { unfold setProp. destruct (decide (id = "__proto__")); cbn [own]; [by left|].
    destruct (decide (id = k)) as [->|Hne]; [right; split; [done|left]|].
    rewrite lookup_insert_ne by done. by left. }
  destruct (negb (entryThrows m)); cbn [fst] in *.
  - destruct (IH _ Hk) as [Hold|[Hne Hin]]; [by apply Hstep|].
    right. split; [done|by right].
  - by apply Hstep.
Qed.

(** A pushed upsert has the shape the loop gives it. *)
Lemma pricingOf_Some (id : string) (m : Json) (p : OpenRouterPricing) :
  pricingOf id m = Normal (Some p) →
  pModelId p = id ∧ currency p = "USD" ∧ updatedAt p = None
  ∧ isNaN (promptPrice p) = false ∧ isNaN (completionPrice p) = false
  ∧ ToNumber (getProp (getProp (Some m) "pricing") "prompt") = Normal (promptPrice p)
  ∧ ToNumber (getProp (getProp (Some m) "pricing") "completion")
    = Normal (completionPrice p).
Proof.
  unfold pricingOf.
  destruct (truthyJ _ && truthyJ _ && truthyJ _); [|discriminate].
  destruct (ToNumber (getProp (getProp (Some m) "pricing") "prompt")) as [pp|];
    [|discriminate].
  destruct (ToNumber (getProp (getProp (Some m) "pricing") "completion")) as [cp|];
    [|discriminate].
  unfold mbind, Completion_bind.
  destruct (if truthyJ (getProp (getProp (Some m) "pricing") "request") then _ else _)
    as [rp|]; [|discriminate].
  destruct (isNaN pp) eqn:Hpp; [discriminate|].
  destruct (isNaN cp) eqn:Hcp; [discriminate|].
  cbn. intros [= <-]. cbn. auto 10.
Qed.

Lemma entryUpsert_wellFormed (m : Json) : Forall wellFormedUpsert (entryUpsert m).
Proof.
  unfold entryUpsert. destruct (entryId m) as [id|] eqn:Hid; [|constructor].
  destruct (pricingOf id m) as [[p|]|] eqn:Hp; try constructor; [|constructor].
  destruct (pricingOf_Some id m p Hp) as (Hpid & Hcur & Hupd & Hpp & Hcp & _).
  repeat split; try done. rewrite Hpid.
  unfold entryId in Hid. destruct (getProp (Some m) "id") as [[| | |s| |]|];
    try discriminate.
  destruct (String.eqb_spec s ""); [discriminate|]. by injection Hid as <-.
Qed.

Lemma loop_upserts_wellFormed (entries : list Json) (acc : LoopState) :
  Forall wellFormedUpsert (upserts acc) →
  Forall wellFormedUpsert (upserts (loop entries acc).1).
Proof.
  intros Hacc. rewrite loop_upserts. apply Forall_app. split; [exact Hacc|].
  induction (processed entries) as [|m l IH]; [constructor|].
  cbn [flat_map]. apply Forall_app. split; [apply entryUpsert_wellFormed|exact IH].
Qed.

Lemma refreshBegin_invariant (env : Env) (st : Module) :
  moduleInvariant st → moduleInvariant (refreshBegin env st).
Proof.
  intros (Hsize & Hhandles & Hupserts & Hflight).
  unfold refreshBegin, moduleInvariant.
  cbn [openRouterDynamicModels nextRef upsertCalls inFlight refreshCalls].
  split; [exact Hsize|]. split; [exact Hhandles|]. split; [exact Hupserts|].
  destruct (apiKeyMissing env); lia.
Qed.

Lemma refreshResume_invariant (net : FetchOutcome) (st : Module) :
  moduleInvariant st → moduleInvariant (refreshResume net st).
Proof.
  intros (Hsize & Hhandles & Hupserts & Hflight).
  assert (Hidle : moduleInvariant
            (mkModule (openRouterDynamicModels st) (openRouterRefreshTimer st)
                      (allUnsupportedModels st) (pred (inFlight st)) (refreshCalls st)
                      (upsertCalls st) (nextRef st))).
  { unfold moduleInvariant.
    cbn [openRouterDynamicModels nextRef upsertCalls inFlight refreshCalls].
    split; [exact Hsize|]. split; [exact Hhandles|]. split; [exact Hupserts|]. lia. }
  unfold refreshResume. destruct net as [|[] [data|]]; try exact Hidle.
  set (init := mkLoop (plain []) [] (nextRef st)).
  destruct (loop (entryList data) init) as [acc completed] eqn:Hloop.
  assert (Hacc : acc = (loop (entryList data) init).1) by by rewrite Hloop.
  assert (Hnext : (nextRef st ≤ next acc)%nat).
  { rewrite Hacc. apply (loop_next (entryList data) init). }
  split; [|split; [|split]]; cbn [openRouterDynamicModels nextRef upsertCalls
                                    inFlight refreshCalls].
  - destruct (completed && (0 <? size (own (fresh acc)))%nat) eqn:Hswap; [|exact Hsize].
    apply andb_true_iff in Hswap as [_ Hpos]. by apply Nat.ltb_lt.
  - intros k h Hk.
    destruct (completed && (0 <? size (own (fresh acc)))%nat).
    + rewrite Hacc in Hk.
      destruct (loop_fresh_keys (entryList data) init k (mk_is_Some _ _ Hk))
        as [[? Hold]|[Hne _]];
        [unfold init in Hold; cbn in Hold; by rewrite lookup_empty in Hold|].
      destruct (loop_fresh_handles _ _ _ _ Hk) as [Hold|[Heq Hrange]];
        [unfold init in Hold; cbn in Hold; by rewrite lookup_empty in Hold|].
      rewrite <- Hacc in Hrange. split; [done|]. split; [by rewrite Heq|lia].
    + destruct (Hhandles k h Hk) as (? & ? & ?). repeat split; try done. lia.
  - apply Forall_app. split; [exact Hupserts|]. rewrite Hacc.
    apply (loop_upserts_wellFormed (entryList data) init). constructor.
  - lia.
Qed.

Variable openaiCompatibleUnsupportedModels : list Handle.

Lemma declared_invariant : moduleInvariant (declared openaiCompatibleUnsupportedModels).
Proof.
  split; [cbn; vm_compute; lia|]. split; [|split; [constructor|cbn; lia]].
  intros k h Hk. cbn [declared openRouterDynamicModels nextRef] in *.
  assert (Hall : map_Forall (fun k h => k ≠ "" ∧ sdk h = "openrouter" ∧ (ref h < 32)%nat)
                   (own seedModels)).
  { unfold seedModels, plain. cbn [own]. apply map_Forall_to_list.
    rewrite map_to_list_to_map by (vm_compute; repeat constructor; set_solver).
    repeat (constructor; [cbn; split; [discriminate|split; [reflexivity|lia]]|]).
    constructor. }
  exact (Hall k h Hk).
Qed.

Lemma reachable_invariant (env : Env) (st : Module) :
  reachable openaiCompatibleUnsupportedModels env st → moduleInvariant st.
Proof.
  unfold reachable. revert st. apply rtc_ind_r.
  - unfold loaded, startOpenRouterRefreshSchedule.
    destruct (negb (checkProviderAPIKey env "openRouter")); [apply declared_invariant|].
    pose proof (refreshBegin_invariant env _ declared_invariant) as Hinv.
    destruct (negb _); exact Hinv.
  - intros s2 s3 _ Hstep IH. destruct Hstep as [env' s _|net s _].
    + by apply refreshBegin_invariant.
    + by apply refreshResume_invariant.
Qed.
End Invariants.

Section ReachableStates.
Context `{Host}.
Variable openaiCompatibleModels : gmap string ModelMap.
Variable openaiCompatibleUnsupportedModels : list Handle.

(** X8. In every state the loaded module can reach, whatever the
    catalog answered, the dynamic table owns at least one model, none
    under the empty name, and every handle in it is an openrouter handle
    that was constructed before: a refresh cannot wipe the dynamic
    models. *)
Theorem dynamic_table_never_empty (env : Env) (st : Module) :
  reachable openaiCompatibleUnsupportedModels env st →
  own (openRouterDynamicModels st) ≠ ∅
  ∧ (∀ k h, own (openRouterDynamicModels st) !! k = Some h →
       k ≠ "" ∧ sdk h = "openrouter" ∧ (ref h < nextRef st)%nat).
Proof.
  intros Hreach. destruct (reachable_invariant _ env st Hreach) as (Hsize & Hhandles & _).
  split; [|exact Hhandles]. intros Hempty. rewrite Hempty, map_size_empty in Hsize. lia.
Qed.

(** X9. Every upsert the module has issued, in any state it can reach,
    is for a model id that is not empty, in USD, without an [updatedAt],
    and with a prompt price and a completion price that are not NaN. *)
Theorem upserts_always_well_formed (env : Env) (st : Module) :
  reachable openaiCompatibleUnsupportedModels env st →
  Forall wellFormedUpsert (upsertCalls st).
Proof. intros Hreach. apply (reachable_invariant _ env st Hreach). Qed.

(** X10. As long as the openai-compatible layer flags no openrouter
    handle, no model of the dynamic table is ever reported as not
    supporting tool calls: [isToolCallUnsupportedModel] is false of every
    handle the table holds, in every reachable state, and so is every
    flag [modelsInfo] shows under [openRouter]. *)
Theorem dynamic_models_never_flagged (env : Env) (st : Module) :
  (∀ u, u ∈ openaiCompatibleUnsupportedModels → sdk u ≠ "openrouter") →
  reachable openaiCompatibleUnsupportedModels env st →
  (∀ k h, own (openRouterDynamicModels st) !! k = Some h →
     isToolCallUnsupportedModel st h = false)
  ∧ (∀ env' info, info ∈ modelsInfo openaiCompatibleModels env' st →
       infoProvider info = "openRouter" →
       Forall (fun mi => isToolCallUnsupported mi = false) (models info)).
Proof.
  intros Hcompat Hreach.
  destruct (reachable_invariant _ env st Hreach) as (_ & Hhandles & _).
  assert (Hflag : ∀ k h, own (openRouterDynamicModels st) !! k = Some h →
                         isToolCallUnsupportedModel st h = false).
  { intros k h Hk. destruct (Hhandles k h Hk) as (_ & Hsdk & _).
    unfold isToolCallUnsupportedModel. apply bool_decide_eq_false.
    rewrite (reachable_unsupported _ env st Hreach).
    rewrite elem_of_list_to_set, elem_of_app. intros [Hin|Hin].
    - by apply (Hcompat h Hin).
    - rewrite staticUnsupportedModels_eq in Hin.
      repeat (apply elem_of_cons in Hin as [->|Hin]; [discriminate Hsdk|]).
      by apply elem_of_nil in Hin. }
  split; [exact Hflag|]. intros env' info Hinfo Hp. unfold modelsInfo in Hinfo.
  apply list_elem_of_In, in_map_iff in Hinfo. destruct Hinfo as [[p m] [<- Hpm]].
  apply list_elem_of_In, elem_of_map_to_list in Hpm. cbn [infoProvider models fst snd] in *.
  subst p. rewrite getAllModels_lookup in Hpm. cbn in Hpm. injection Hpm as <-.
  apply Forall_forall. intros mi Hmi.
  apply list_elem_of_In, in_map_iff in Hmi. destruct Hmi as [[k h] [<- Hkh]].
  apply list_elem_of_In, elem_of_map_to_list in Hkh. cbn. by eapply Hflag.
Qed.

(** X11. Loaded with a usable key, the module enters its first refresh
    at once, with one fetch in flight, and installs the timer; from then
    on, in every state it can reach, the timer stays installed, at least
    one refresh has been entered, and fetches in flight never outnumber
    refreshes entered. *)
Theorem credential_keeps_schedule (env : Env) (st : Module) :
  usableKey (env !! "OPENROUTER_API_KEY") = true →
  reachable openaiCompatibleUnsupportedModels env st →
  refreshCalls (loaded openaiCompatibleUnsupportedModels env) = 1%nat
  ∧ inFlight (loaded openaiCompatibleUnsupportedModels env) = 1%nat
  ∧ openRouterRefreshTimer st = true
  ∧ (1 ≤ refreshCalls st)%nat
  ∧ (inFlight st ≤ refreshCalls st)%nat.
Proof.
  intros Hkey Hreach.
  destruct (credential_starts_schedule openaiCompatibleUnsupportedModels env Hkey)
    as (Hcalls & Hflight & Htimer).
  split; [exact Hcalls|]. split; [exact Hflight|].
  assert (Hkeep : openRouterRefreshTimer st = true ∧ (1 ≤ refreshCalls st)%nat).
  { unfold reachable in Hreach. revert st Hreach. apply rtc_ind_r.
    - rewrite Htimer, Hcalls. auto.
    - intros s2 s3 _ Hstep [IHt IHc]. destruct Hstep as [env' s _|net s _].
      + split; [exact IHt|]. cbn. lia.
      + destruct (refreshResume_frame net s) as (-> & _ & ->). auto. }
  destruct Hkeep as [Ht Hc]. split; [exact Ht|]. split; [exact Hc|].
  apply (reachable_invariant _ env st Hreach).
Qed.

(** X12. Take a run with a key whose fetch succeeds, whose body parses,
    in which no iteration throws and no entry is named [__proto__].
    Afterwards [getModel] resolves every id the catalog lists, under
    [openRouter], to a handle constructed during that run for that id.  If
    the catalog lists at least one id, a name it does not list (nor
    [Object.prototype] defines), seeded or refreshed earlier though it may
    have been, resolves to the fallback.  If it lists none, the table is
    kept and every name under [openRouter] resolves as before the run. *)
Theorem refresh_then_getModel (env : Env) (data : Json) (st : Module) :
  apiKeyMissing env = false →
  Forall (fun m => entryThrows m = false) (entryList data) →
  "__proto__" ∉ omap entryId (entryList data) →
  let ids := omap entryId (entryList data) in
  let st' := refreshOpenRouterModels env (FetchResponse true (Some data)) st in
  (∀ id, id ∈ ids →
     ∃ h, getModel openaiCompatibleModels st' (Some (mkChatModel "openRouter" id))
          = Normal (VHandle h)
          ∧ h = openrouter (ref h) id
          ∧ (nextRef st ≤ ref h < nextRef st')%nat)
  ∧ (ids ≠ [] →
     ∀ k, k ∉ ids →
          objectPrototypeGet k = None →
          getModel openaiCompatibleModels st' (Some (mkChatModel "openRouter" k))
          = Normal (VHandle fallbackModel))
  ∧ (ids = [] →
     openRouterDynamicModels st' = openRouterDynamicModels st
     ∧ ∀ k, getModel openaiCompatibleModels st' (Some (mkChatModel "openRouter" k))
            = getModel openaiCompatibleModels st (Some (mkChatModel "openRouter" k))).
Proof.
  intros Hkey Hquiet Hproto ids st'.
  destruct (refresh_success env data st Hkey) as (Htable & _ & Hnext).
  fold st' in Htable, Hnext.
  set (init := mkLoop (plain []) [] (nextRef st)) in *.
  assert (Hdone : (loop (entryList data) init).2 = true).
  { rewrite loop_completed. apply forallb_forall. intros m Hm.
    rewrite Forall_forall in Hquiet. rewrite Hquiet; [done|].
    by apply list_elem_of_In. }
  pose proof (loop_fresh_dom (entryList data) init Hdone Hproto) as Hdom.
  cbn in Hdom. rewrite dom_empty_L, (left_id_L ∅ (∪)) in Hdom. fold ids in Hdom.
  rewrite Hdone in Htable. cbn [andb] in Htable.
  assert (Hswap : ∀ id, id ∈ ids →
            is_Some (own (fresh (loop (entryList data) init).1) !! id)
            ∧ getAllModels openaiCompatibleModels st' !! "openRouter"
              = Some (fresh (loop (entryList data) init).1)).
  { intros id Hid.
    assert (Hown : is_Some (own (fresh (loop (entryList data) init).1) !! id)).
    { apply elem_of_dom. rewrite Hdom. by apply elem_of_list_to_set. }
    split; [exact Hown|].
    assert (Hsize : (0 <? size (own (fresh (loop (entryList data) init).1)))%nat = true).
    { apply Nat.ltb_lt. pose proof (map_size_ne_0_lookup_2 _ id Hown). lia. }
    rewrite Hsize in Htable. rewrite getAllModels_lookup. cbn. by rewrite Htable. }
  split; [|split].
  - intros id Hid. destruct (Hswap id Hid) as [[h Hh] Hp]. exists h.
    split; [by eapply getModel_present|]. rewrite Hnext.
    destruct (loop_fresh_handles _ _ _ _ Hh) as [Hold|Hnew]; [|exact Hnew].
    unfold init in Hold. cbn in Hold. by rewrite lookup_empty in Hold.
  - intros Hne k Hk Hproto'.
    destruct ids as [|id rest] eqn:Hids; [done|].
    destruct (Hswap id) as [_ Hp]; [left|].
    apply getModel_absent. rewrite Hp.
    split; [|split; [|exact Hproto']].
    + apply not_elem_of_dom. rewrite Hdom. by rewrite elem_of_list_to_set.
    + by rewrite loop_fresh_proto.
  - intros Hnil.
    assert (Hkept : openRouterDynamicModels st' = openRouterDynamicModels st).
    { rewrite Hnil in Hdom. cbn in Hdom.
      assert (Hsize : size (own (fresh (loop (entryList data) init).1)) = 0%nat).
      { apply map_size_empty_iff, dom_empty_iff_L, Hdom. }
      rewrite Hsize in Htable. exact Htable. }
    split; [exact Hkept|]. intros k.
    unfold getModel, lookupPlain. cbn [provider model].
    rewrite !getAllModels_lookup. cbn. by rewrite Hkept.
Qed.
End ReachableStates.

(** A state reached by one refresh whose catalog lists the model [B]
    with two prices. *)
Lemma reachable_after_one_refresh :
  let env : Env := {[ "OPENROUTER_API_KEY" := "sk-or-1" ]} in
  let entry :=
    JObject [("id", JString "B");
             ("pricing", JObject [("prompt", JString "1");
                                  ("completion", JString "2")])] in
  let data := JObject [("data", JArray [entry])] in
  reachable [] env (refreshResume (FetchResponse true (Some data)) (loaded [] env)).
Proof.
  intros env entry data. unfold reachable.
  eapply rtc_l; [|apply rtc_refl]. apply step_settle. vm_compute. lia.
Qed.

Lemma dynamic_table_never_empty_witness :
  let env : Env := {[ "OPENROUTER_API_KEY" := "sk-or-1" ]} in
  let entry :=
    JObject [("id", JString "B");
             ("pricing", JObject [("prompt", JString "1");
                                  ("completion", JString "2")])] in
  let data := JObject [("data", JArray [entry])] in
  let st := refreshResume (FetchResponse true (Some data)) (loaded [] env) in
  sdk (openrouter 32 "B") = "openrouter" ∧ (32 < nextRef st)%nat.
Proof.
  intros env entry data st.
  destruct (dynamic_table_never_empty [] env st reachable_after_one_refresh)
    as [_ Hhandles].
  destruct (Hhandles "B" (openrouter 32 "B") eq_refl) as (_ & Hsdk & Href).
  split; [exact Hsdk|exact Href].
Defined.

Lemma upserts_always_well_formed_witness :
  Forall wellFormedUpsert
    [mkPricing "B" (Dyadic false 1 0) (Dyadic false 2 0) None "USD" None].
Proof.
  exact (upserts_always_well_formed [] _ _ reachable_after_one_refresh).
Defined.

Lemma dynamic_models_never_flagged_witness :
  let env : Env := {[ "OPENROUTER_API_KEY" := "sk-or-1" ]} in
  let entry :=
    JObject [("id", JString "B");
             ("pricing", JObject [("prompt", JString "1");
                                  ("completion", JString "2")])] in
  let data := JObject [("data", JArray [entry])] in
  let st := refreshResume (FetchResponse true (Some data)) (loaded [] env) in
  isToolCallUnsupportedModel st (openrouter 32 "B") = false.
Proof.
  intros env entry data st.
  destruct (dynamic_models_never_flagged ∅ [] env st) as [Hflag _].
  - intros u Hu. by apply elem_of_nil in Hu.
  - exact reachable_after_one_refresh.
  - by apply (Hflag "B").
Defined.

Lemma credential_keeps_schedule_witness :
  let env : Env := {[ "OPENROUTER_API_KEY" := "sk-or-1" ]} in
  let st := refreshResume (FetchResponse false None) (loaded [] env) in
  openRouterRefreshTimer st = true ∧ (1 ≤ refreshCalls st)%nat.
Proof.
  intros env st.
  destruct (credential_keeps_schedule [] env st) as (_ & _ & Htimer & Hcalls & _).
  - reflexivity.
  - unfold reachable. eapply rtc_l; [|apply rtc_refl]. apply step_settle.
    vm_compute. lia.
  - split; [exact Htimer|exact Hcalls].
Defined.

Lemma refresh_then_getModel_witness :
  let env : Env := {[ "OPENROUTER_API_KEY" := "sk-or-1" ]} in
  let data := JObject [("data", JArray [JObject [("id", JString "B")]])] in
  let st' := refreshOpenRouterModels env (FetchResponse true (Some data)) (declared []) in
  (∃ h, getModel ∅ st' (Some (mkChatModel "openRouter" "B")) = Normal (VHandle h)
        ∧ h = openrouter (ref h) "B")
  ∧ getModel ∅ st' (Some (mkChatModel "openRouter" "qwen3-8b:free"))
    = Normal (VHandle fallbackModel).
Proof.
  intros env data st'.
  assert (Hids : omap entryId (entryList data) = ["B"]) by reflexivity.
  destruct (@refresh_then_getModel fragmentHost ∅ env data (declared []))
    as (Hlisted & Hgone & _).
  - reflexivity.
  - repeat constructor.
  - rewrite Hids. intros Hin%list_elem_of_In. destruct Hin as [Heq|[]]. discriminate Heq.
  - rewrite Hids in Hlisted, Hgone.
    destruct (Hlisted "B") as (h & Hget & Hh & _); [left|].
    split; [by exists h|]. apply Hgone; [discriminate| |reflexivity].
    intros Hin%list_elem_of_In. destruct Hin as [Heq|[]]. discriminate Heq.
Defined.

(** ** The pricing table *)

Section PricingTable.
Context `{Host}.
Variable updatedAtDefault : Z.

(** X14. An upsert sends one statement and touches one row: every row
    filed under another model id is as it was, the model ids of the table
    are those from before and the upserted one, and a table whose rows are
    filed under their own model id stays such a table. *)
Theorem upsert_touches_one_row (p : OpenRouterPricing) (now : Z) (db : Db) :
  let db' := pgOpenRouterPricingRepository.upsert updatedAtDefault p now db in
  (∀ k, k ≠ pModelId p → rows db' !! k = rows db !! k)
  ∧ dom (rows db') = {[ pModelId p ]} ∪ dom (rows db)
  ∧ roundTrips db' = S (roundTrips db)
  ∧ (wellFiled db → wellFiled db').
Proof.
  intros db'. subst db'. unfold pgOpenRouterPricingRepository.upsert.
  cbn [rows roundTrips]. split; [|split; [|split]].
  - intros k Hk. by rewrite lookup_insert_ne.
  - apply dom_insert_L.
  - reflexivity.
  - intros Hfiled k r. cbn [rows]. destruct (decide (k = pModelId p)) as [->|Hne].
    + rewrite lookup_insert_eq. intros [= <-]. by destruct (rows db !! pModelId p).
    + rewrite lookup_insert_ne by done. apply Hfiled.
Qed.

(** X15. A second upsert for the same model id overwrites the first in
    every column: the table afterwards is the original table with, under
    that id, the second record's prices and currency as text and the time
    of the second upsert as [updatedAt].  Nothing of the first record is
    left, and the number of rows is that after one upsert. *)
Theorem upsert_overwrites (p q : OpenRouterPricing) (t1 t2 : Z) (db : Db) :
  pModelId q = pModelId p →
  let db' :=
    pgOpenRouterPricingRepository.upsert updatedAtDefault q t2
      (pgOpenRouterPricingRepository.upsert updatedAtDefault p t1 db) in
  rows db'
  = <[pModelId q := mkRow (pModelId q)
                          (NumberToString (promptPrice q))
                          (NumberToString (completionPrice q))
                          (NumberToString <$> requestPrice q)
                          (currency q) t2]> (rows db)
  ∧ size (rows db')
    = size (rows (pgOpenRouterPricingRepository.upsert updatedAtDefault p t1 db))
  ∧ roundTrips db' = S (S (roundTrips db)).
Proof.
  intros Hid db'. subst db'. unfold pgOpenRouterPricingRepository.upsert.
  cbn [rows roundTrips]. rewrite Hid, lookup_insert_eq, insert_insert_eq.
  split; [reflexivity|]. split; [|reflexivity].
  rewrite <- (insert_insert_eq (rows db) (pModelId p)
                (mkRow (pModelId p) (NumberToString (promptPrice q))
                   (NumberToString (completionPrice q))
                   (NumberToString <$> requestPrice q) (currency q) t2)
                (match rows db !! pModelId p with
                 | Some _ => mkRow (pModelId p) (NumberToString (promptPrice p))
                               (NumberToString (completionPrice p))
                               (NumberToString <$> requestPrice p) (currency p) t1
                 | None => mkRow (pModelId p) (NumberToString (promptPrice p))
                             (NumberToString (completionPrice p))
                             (NumberToString <$> requestPrice p) (currency p)
                             updatedAtDefault
                 end)) at 1.
  rewrite !map_size_insert, lookup_insert_eq. reflexivity.
Qed.

Lemma selected_model_ids (ids : list string) (l : list (string * Row)) :
  Forall (fun e : string * Row => rowModelId e.2 = e.1) l →
  map rowModelId (filter (fun r => rowModelId r ∈ ids) (map snd l))
  = filter (fun k => k ∈ ids) l.*1.
Proof.
  induction 1 as [|[k r] l Hkr _ IH]; [reflexivity|].
  cbn [map fmap list_fmap snd fst] in *. rewrite !filter_cons, Hkr.
  destruct (decide (k ∈ ids)); [|exact IH].
  cbn [map]. by rewrite Hkr, IH.
Qed.

(** X16. On a table whose rows are filed under their own model id,
    [getByModelIds] returns one record for each requested id that the
    table holds and nothing else: no record for an id that was not asked
    for, none twice even if an id is asked for twice, nothing for an id
    the table does not hold; and it leaves the table as it is. *)
Theorem getByModelIds_selects (ids : list string) (db : Db) :
  wellFiled db →
  let result := (pgOpenRouterPricingRepository.getByModelIds ids db).1 in
  NoDup (map pModelId result)
  ∧ (∀ id, id ∈ map pModelId result ↔ id ∈ ids ∧ id ∈ dom (rows db))
  ∧ rows (pgOpenRouterPricingRepository.getByModelIds ids db).2 = rows db
  ∧ (length result ≤ size (rows db))%nat.
Proof.
  intros Hfiled result. subst result.
  unfold pgOpenRouterPricingRepository.getByModelIds.
  destruct ids as [|id0 ids].
  { cbn. split; [constructor|]. split; [|split; [reflexivity|lia]].
    intros id. split; [intros Hin; by apply elem_of_nil in Hin|].
    intros [Hin _]. by apply elem_of_nil in Hin. }
  cbn [length Nat.eqb fst snd rows].
  assert (Hall : Forall (fun e : string * Row => rowModelId e.2 = e.1)
                   (map_to_list (rows db))).
  { apply Forall_forall. intros [k r] Hkr. apply elem_of_map_to_list in Hkr.
    by apply Hfiled. }
  assert (Hids : map pModelId
                   (map pgOpenRouterPricingRepository.ofRow
                      (filter (fun r => rowModelId r ∈ id0 :: ids)
                         (map snd (map_to_list (rows db)))))
                 = filter (fun k => k ∈ id0 :: ids) (map_to_list (rows db)).*1).
  { rewrite <- (selected_model_ids (id0 :: ids) _ Hall).
    induction (filter _ _) as [|r l IH]; [reflexivity|]. cbn. by rewrite IH. }
  rewrite Hids. split; [apply NoDup_filter, NoDup_fst_map_to_list|].
  split; [|split; [reflexivity|]].
  - intros id. rewrite list_elem_of_filter, list_elem_of_fmap, elem_of_dom.
    split.
    + intros [Hin ([k r] & -> & Hkr)]. apply elem_of_map_to_list in Hkr.
      split; [exact Hin|by eexists].
    + intros [Hin [r Hr]]. split; [exact Hin|]. exists (id, r).
      split; [reflexivity|]. by apply elem_of_map_to_list.
  - rewrite !length_map. etrans; [apply length_filter|].
    by rewrite length_map, length_map_to_list.
Qed.
End PricingTable.

Lemma upsert_then_getByModelIds_witness :
  (pgOpenRouterPricingRepository.getByModelIds ["m"]
     (pgOpenRouterPricingRepository.upsert 0
        (mkPricing "m" (Dyadic false 3 0) (Dyadic false 7 0) None "USD" None)
        5 (mkDb ∅ 0))).1
  = [mkPricing "m" (Dyadic false 3 0) (Dyadic false 7 0) None "USD" (Some 0%Z)].
Proof.
  rewrite (upsert_then_getByModelIds 0 5
             (mkPricing "m" (Dyadic false 3 0) (Dyadic false 7 0) None "USD" None)
             (mkDb ∅ 0)).
  - reflexivity.
  - intros k r Hk. cbn in Hk. by rewrite lookup_empty in Hk.
Defined.

Lemma upsert_overwrites_witness :
  let p := mkPricing "m" (Dyadic false 3 0) (Dyadic false 7 0) None "USD" None in
  let q := mkPricing "m" (Dyadic false 4 0) (Dyadic false 8 0)
                     (Some (Dyadic false 1 0)) "USD" None in
  rows (pgOpenRouterPricingRepository.upsert 0 q 9
          (pgOpenRouterPricingRepository.upsert 0 p 5 (mkDb ∅ 0)))
  = {[ "m" := mkRow "m" "4" "8" (Some "1") "USD" 9 ]}.
Proof.
  intros p q.
  destruct (upsert_overwrites 0 p q 5 9 (mkDb ∅ 0) eq_refl) as [Hrows _].
  rewrite Hrows. reflexivity.
Defined.

Lemma getByModelIds_selects_witness :
  let db := mkDb {[ "m" := mkRow "m" "4" "8" None "USD" 9 ]} 0 in
  NoDup (map pModelId
           (pgOpenRouterPricingRepository.getByModelIds ["m"; "m"; "n"] db).1).
Proof.
  intros db. apply (getByModelIds_selects ["m"; "m"; "n"] db).
  intros k r Hk. cbn in Hk. apply lookup_singleton_Some in Hk as [<- <-]. reflexivity.
Defined.

(** ** Refreshes and the other providers *)

Section OtherProviders.
Context `{Host}.
Variable openaiCompatibleModels : gmap string ModelMap.

(** X17. How a request for a provider other than [openRouter] resolves
    does not depend on the module state: no refresh, whatever it fetched,
    changes the answer of [getModel] for a static or an openai-compatible
    provider, nor its answer when there is no request. *)
Theorem getModel_other_providers_stable (st st' : Module) (p k : string) :
  p ≠ "openRouter" →
  getModel openaiCompatibleModels st' (Some (mkChatModel p k))
  = getModel openaiCompatibleModels st (Some (mkChatModel p k))
  ∧ getModel openaiCompatibleModels st' None = getModel openaiCompatibleModels st None
  ∧ (∀ runs,
       getModel openaiCompatibleModels (refreshes runs st) (Some (mkChatModel p k))
       = getModel openaiCompatibleModels st (Some (mkChatModel p k))).
Proof.
  intros Hp.
  assert (Hany : ∀ s1 s2,
            getModel openaiCompatibleModels s1 (Some (mkChatModel p k))
            = getModel openaiCompatibleModels s2 (Some (mkChatModel p k))).
  { intros s1 s2. unfold getModel, lookupPlain. cbn [provider model].
    rewrite !getAllModels_lookup. by rewrite !decide_False by exact Hp. }
  split; [apply Hany|]. split; [reflexivity|]. intros runs. apply Hany.
Qed.
End OtherProviders.

Lemma getModel_other_providers_stable_witness :
  let env : Env := {[ "OPENROUTER_API_KEY" := "sk-or-1" ]} in
  let data := JObject [("data", JArray [JObject [("id", JString "grok-4")]])] in
  getModel ∅ (refreshOpenRouterModels env (FetchResponse true (Some data)) (declared []))
           (Some (mkChatModel "xai" "grok-4"))
  = Normal (VHandle (xai 13 "grok-4")).
Proof.
  intros env data.
  destruct (@getModel_other_providers_stable fragmentHost ∅ (declared [])
              (refreshOpenRouterModels env (FetchResponse true (Some data)) (declared []))
              "xai" "grok-4") as [Hsame _]; [discriminate|].
  rewrite Hsame. reflexivity.
Defined.
